(** * Inventory tracker: the database helpers of [streamlit_app.py]

    A shallow embedding of [connect_db], [initialize_data], [load_data] and
    [update_data], and of the script from [connect_db()] to the commit
    button, together with the parts of pandas, sqlite3 and the Streamlit
    session state that they touch.

    Conventions.
    - A Python scalar stored in a cell is a [value]; a row dictionary is a
      [gmap string value] (the order of the keys of a row dictionary is never
      observed by the code).
    - A data frame is the list of its row records under the default
      [RangeIndex], so that positions and labels are both [0 .. n-1].
    - The [edited_rows] dictionary is kept as the list of its items, in
      insertion order, because the code iterates over it.
    - A sqlite3 connection is a record holding the tables it knows, whether a
      transaction is open, and the log of what the engine was asked to do.
      The effect of a DML statement on the stored rows is left to the engine;
      the log is what the theorems speak about.
    - An SQL text is represented by the table, the columns and the
      placeholders it names, and a [CREATE TABLE] text by its column
      definitions with their constraints.  Compiling a DML statement checks
      that the table and the columns exist; compiling a [CREATE TABLE] text
      checks that each column constraint is one of SQLite's grammar.
    - The engine is taken to accept every statement that was compiled and
      bound: what the constraints of a table (a primary key, say) do to a
      bound statement is outside the model, and a theorem that speaks of a
      call that goes through speaks of the runs in which the engine accepts
      its statements.
    - Cell values are carried through unchanged; the dtype conversions of
      pandas are not modelled. *)

From Stdlib Require Import ZArith String List Lia.
From stdpp Require Import gmap strings list fin_maps.

Local Open Scope string_scope.
Local Open Scope Z_scope.
Local Open Scope list_scope.

(** ** Python values and exceptions *)

Inductive value : Type :=
  | VNone
  | VInt (z : Z)
  | VFloat (bits : Z)       (* a binary64, carried as its bit pattern *)
  | VStr (s : string).

Inductive exn : Type :=
  | IndexError
  | KeyError
  | TypeError
  | ValueError
  | OverflowError
  | ProgrammingError        (* sqlite3.ProgrammingError *)
  | OperationalError        (* sqlite3.OperationalError *)
  | NameError (name : string).

Inductive result (A : Type) : Type :=
  | Ok (a : A)
  | Raise (e : exn).
Arguments Ok {A} a.
Arguments Raise {A} e.

Definition is_ok {A} (r : result A) : bool :=
  match r with Ok _ => true | Raise _ => false end.

#[export] Instance result_ret : MRet result := fun A a => Ok a.
#[export] Instance result_bind : MBind result := fun A B k r =>
  match r with
  | Ok a => k a
  | Raise e => Raise e
  end.

(** ** Data frames *)

Abbreviation row := (gmap string value).

Definition DataFrame : Type := list row.

(** [df.iloc[i]] for an integer [i]: positions count from the end when
    negative, and anything outside [-n .. n-1] raises [IndexError]. *)
Definition iloc (df : DataFrame) (i : Z) : result row :=
  let n := Z.of_nat (length df) in
  let j := if i <? 0 then n + i else i in
  if (0 <=? j) && (j <? n) then
    match df !! Z.to_nat j with
    | Some r => Ok r
    | None => Raise IndexError
    end
  else Raise IndexError.

(** [df.loc[i, 'id']]: a label lookup; under a [RangeIndex] the labels are
    [0 .. n-1], and a missing label or a missing column raises [KeyError]. *)
Definition loc (df : DataFrame) (i : Z) (col : string) : result value :=
  if (0 <=? i) && (i <? Z.of_nat (length df)) then
    match df !! Z.to_nat i with
    | Some r => match r !! col with
                | Some v => Ok v
                | None => Raise KeyError
                end
    | None => Raise KeyError
    end
  else Raise KeyError.

(** [pd.DataFrame(data, columns=cols)] on the tuples returned by [fetchall]:
    the width of the data has to agree with the number of column names. *)
Definition pd_DataFrame (data : list (list value)) (cols : list string)
  : result DataFrame :=
  if forallb (fun t => Nat.eqb (length t) (length cols)) data then
    Ok (map (fun t => list_to_map (zip cols t)) data)
  else Raise ValueError.

(** ** The sqlite3 connection *)

Inductive statement : Type :=
  | UPDATE
  | INSERT
  | DELETE.

(** The three SQL texts of [update_data]: which table each is written
    against ([UPDATE inventory], [INSERT INTO inventory], [DELETE FROM
    inventory]). *)
Definition table_of (s : statement) : string :=
  match s with
  | UPDATE => "inventory"
  | INSERT => "inventory"
  | DELETE => "inventory"
  end.

(** The named placeholders of each statement, in the order in which they
    first occur in the SQL text (the order in which sqlite3 binds them). *)
Definition named_parameters (s : statement) : list string :=
  match s with
  | UPDATE =>
      ["item_name"; "price"; "units_sold"; "units_left"; "cost_price";
       "reorder_point"; "description"; "id"]
  | INSERT =>
      ["id"; "item_name"; "price"; "units_sold"; "units_left"; "cost_price";
       "reorder_point"; "description"]
  | DELETE => ["id"]
  end.

(** The columns a statement names; in all three statements every placeholder
    [:c] stands next to the column [c]. *)
Definition columns_of (s : statement) : list string := named_parameters s.

(** What is handed to [executemany] for one execution: a plain [dict], or a
    [defaultdict(lambda: None, d)]. *)
Inductive parameters : Type :=
  | dict (d : row)
  | defaultdict_None (d : row).

Definition get_parameter (p : parameters) (name : string) : result value :=
  match p with
  | dict d =>
      match d !! name with
      | Some v => Ok v
      | None => Raise ProgrammingError
      end
  | defaultdict_None d =>
      match d !! name with
      | Some v => Ok v
      | None => Ok VNone
      end
  end.

(** sqlite3 stores a Python [int] as a signed 64-bit integer. *)
Definition bind_value (v : value) : result value :=
  match v with
  | VInt z =>
      if (- 2 ^ 63 <=? z) && (z <? 2 ^ 63) then Ok v else Raise OverflowError
  | _ => Ok v
  end.

Fixpoint bind_names (names : list string) (p : parameters)
  : result (list value) :=
  match names with
  | [] => Ok []
  | name :: rest =>
      match get_parameter p name with
      | Raise e => Raise e
      | Ok v =>
          match bind_value v with
          | Raise e => Raise e
          | Ok v' =>
              match bind_names rest p with
              | Raise e => Raise e
              | Ok vs => Ok (v' :: vs)
              end
          end
      end
  end.

Definition bind_parameters (s : statement) (p : parameters)
  : result (list value) :=
  bind_names (named_parameters s) p.

Inductive event : Type :=
  | Begin
  | Exec (s : statement) (p : parameters)
  | Commit.

Record table : Type := { t_columns : list string; t_rows : list (list value) }.

Record connection : Type := {
  tables : gmap string table;
  in_transaction : bool;
  log : list event
}.

Definition with_log (c : connection) (b : bool) (l : list event) : connection :=
  {| tables := tables c; in_transaction := b; log := l |}.

(** ** Code that runs against a connection and may raise *)

Definition M (A : Type) : Type := connection → result A * connection.

Definition lift {A} (r : result A) : M A := fun c => (r, c).

#[export] Instance M_ret : MRet M := fun A a c => (Ok a, c).
#[export] Instance M_bind : MBind M := fun A B k m c =>
  match m c with
  | (Ok a, c') => k a c'
  | (Raise e, c') => (Raise e, c')
  end.

(** Compiling a statement: the table and the columns it names have to exist. *)
Definition prepare (s : statement) : M unit :=
  fun c =>
    match tables c !! table_of s with
    | Some t =>
        if forallb (fun col => bool_decide (col ∈ t_columns t)) (columns_of s)
        then (Ok tt, c)
        else (Raise OperationalError, c)
    | None => (Raise OperationalError, c)
    end.

(** Before a DML statement the module opens a transaction unless one is
    already open. *)
Definition begin_transaction : M unit :=
  fun c =>
    if in_transaction c then (Ok tt, c)
    else (Ok tt, with_log c true (log c ++ [Begin])).

(** Running a bound statement: the engine is asked to execute it, which the
    log records.  The stored rows and the constraints of the table belong to
    the engine; a run in which the engine refuses a statement (a second row
    under a primary key, say) is not described by this function. *)
Definition step (s : statement) (p : parameters) : M unit :=
  fun c => (Ok tt, with_log c (in_transaction c) (log c ++ [Exec s p])).

(** The loop of [executemany]: pull the next parameter object from the
    iterable (which, for a generator, runs the generator's body and may
    raise), bind it, execute. *)
Fixpoint execute_each (s : statement) (ps : list (result parameters)) : M unit :=
  match ps with
  | [] => mret tt
  | next :: rest =>
      p ← lift next;
      lift (bind_parameters s p);;
      step s p;;
      execute_each s rest
  end.

Definition executemany (s : statement) (ps : list (result parameters)) : M unit :=
  prepare s;;
  begin_transaction;;
  execute_each s ps.

(** [conn.commit()]: nothing happens when no transaction is open. *)
Definition commit : M unit :=
  fun c =>
    if in_transaction c then (Ok tt, with_log c false (log c ++ [Commit]))
    else (Ok tt, c).

(** ** The Streamlit session state *)

Record editing_state : Type := {
  edited_rows : list (Z * row);
  added_rows : list row;
  deleted_rows : list Z
}.

Record session_state : Type := { inventory_table : editing_state }.

Definition truthy {A} (l : list A) : bool :=
  match l with [] => false | _ => true end.

(** ** [initialize_data] *)

(** What follows the type of a column in the three [CREATE TABLE] texts. *)
Inductive column_constraint : Type :=
  | NO_CONSTRAINT
  | PRIMARY_KEY
  | FOREIGN_KEY.

Record column_def : Type := {
  cd_name : string;
  cd_type : string;
  cd_constraint : column_constraint
}.

(** SQLite's grammar has no column constraint that begins with [FOREIGN]:
    [FOREIGN KEY (...) REFERENCES ...] is a table constraint, and a column
    refers to another table with [REFERENCES] alone.  A column definition
    followed by [FOREIGN KEY] is a syntax error. *)
Definition constraint_parses (k : column_constraint) : bool :=
  match k with
  | NO_CONSTRAINT => true
  | PRIMARY_KEY => true
  | FOREIGN_KEY => false
  end.

Definition create_table_parses (cols : list column_def) : bool :=
  forallb (fun cd => constraint_parses (cd_constraint cd)) cols.

(** [cursor.execute('CREATE TABLE IF NOT EXISTS name (cols)')]: the text is
    compiled first, and a text that does not parse raises
    [sqlite3.OperationalError] whether or not the table exists; a text that
    parses creates the table unless one of that name is there. *)
Definition create_table_if_not_exists (name : string) (cols : list column_def)
  : M unit :=
  fun c =>
    if create_table_parses cols then
      match tables c !! name with
      | Some _ => (Ok tt, c)
      | None =>
          (Ok tt,
           {| tables := <[name := {| t_columns := map cd_name cols;
                                     t_rows := [] |}]> (tables c);
              in_transaction := in_transaction c;
              log := log c |})
      end
    else (Raise OperationalError, c).

Definition TEXT (name : string) (k : column_constraint) : column_def :=
  {| cd_name := name; cd_type := "TEXT"; cd_constraint := k |}.

Definition entities_schema : list column_def :=
  [TEXT "entity_uuid" PRIMARY_KEY;
   TEXT "entity_type" NO_CONSTRAINT;
   TEXT "mitam_id" NO_CONSTRAINT;
   TEXT "deliverying_vessel_name" NO_CONSTRAINT;
   TEXT "entity_inventory" NO_CONSTRAINT].

Definition transactions_schema : list column_def :=
  [TEXT "transaction_id" PRIMARY_KEY;
   TEXT "entity_uuid" FOREIGN_KEY;
   TEXT "transaction_type" NO_CONSTRAINT;
   TEXT "transaction_location" NO_CONSTRAINT;
   TEXT "user_id" FOREIGN_KEY].

Definition users_schema : list column_def :=
  [TEXT "user_id" PRIMARY_KEY;
   TEXT "last_name" NO_CONSTRAINT;
   TEXT "first_name" NO_CONSTRAINT;
   TEXT "email" NO_CONSTRAINT;
   TEXT "phone_number" NO_CONSTRAINT;
   TEXT "organization" NO_CONSTRAINT;
   TEXT "sponsor_first" NO_CONSTRAINT;
   TEXT "sponsor_last" NO_CONSTRAINT;
   TEXT "sponsor_email" NO_CONSTRAINT;
   TEXT "sponsor_phone" NO_CONSTRAINT;
   TEXT "user_type" NO_CONSTRAINT;
   TEXT "password_hash" NO_CONSTRAINT].

Definition initialize_data : M unit :=
  create_table_if_not_exists "entities" entities_schema;;
  create_table_if_not_exists "transactions" transactions_schema;;
  create_table_if_not_exists "users" users_schema;;
  commit.

(** The tables that the three [CREATE TABLE] texts name. *)
Definition declared_tables : list (string * list column_def) :=
  [("entities", entities_schema);
   ("transactions", transactions_schema);
   ("users", users_schema)].

(** A database file that was just created. *)
Definition new_database : connection :=
  {| tables := ∅; in_transaction := false; log := [] |}.

(** ** [load_data] *)

(** The objects that the names of [load_data] can be bound to. *)
Inductive pyobj : Type :=
  | PyNone
  | PyGlobal (name : string)          (* whatever a module-level name holds *)
  | PyCursor
  | PyRows (data : list (list value))
  | PyFrame (df : DataFrame)
  | PyTuple3 (a b c : pyobj).

(** The names bound at module level when [load_data] is called. *)
Definition module_globals : list string :=
  ["defaultdict"; "Path"; "sqlite3"; "st"; "alt"; "pd";
   "connect_db"; "initialize_data"; "load_data"; "update_data";
   "conn"; "db_was_just_created"].

(** Reading a name inside the function: its local binding, else the module's,
    else [NameError] (no builtin is called [df_transactions] or [df_users]). *)
Definition load_name (locals : gmap string pyobj) (x : string) : result pyobj :=
  match locals !! x with
  | Some v => Ok v
  | None =>
      if bool_decide (x ∈ module_globals) then Ok (PyGlobal x)
      else Raise (NameError x)
  end.

(** The [columns=] lists of the three [pd.DataFrame] calls. *)
Definition entities_columns : list string :=
  ["entity_uuid"; "entity_type"; "mitam_id"; "deliverying_vessel_name";
   "entity_inventory"].

Definition transactions_columns : list string :=
  ["transaction_id"; "entity_uuid"; "transaction_type";
   "transaction_location"; "user_id"].

Definition users_columns : list string :=
  ["user_id"; "last_name"; "first_name"; "email"; "phone_number";
   "organization"; "sponsor_first"; "sponsor_last"; "sponsor_email";
   "sponsor_phone"; "user_type"; "password_hash"].

(** [cursor.execute('SELECT * FROM t')] followed by [cursor.fetchall()]. *)
Definition fetch_all (name : string) : M (list (list value)) :=
  fun c =>
    match tables c !! name with
    | Some t => (Ok (t_rows t), c)
    | None => (Raise OperationalError, c)
    end.

(** [try: ...SELECT... except: return None], continuing with [k] otherwise. *)
Definition try_fetch (name : string) (k : list (list value) → M pyobj)
  : M pyobj :=
  fun c =>
    match fetch_all name c with
    | (Ok data, c') => k data c'
    | (Raise _, c') => (Ok PyNone, c')
    end.

Definition load_data : M pyobj :=
  let l0 : gmap string pyobj := {[ "conn" := PyGlobal "conn" ]} in
  let l1 := <["cursor" := PyCursor]> l0 in
  try_fetch "entities" (fun data =>
  let l2 := <["data" := PyRows data]> l1 in
  df ← lift (pd_DataFrame data entities_columns);
  let l3 := <["df_entities" := PyFrame df]> l2 in
  try_fetch "transactions" (fun data =>
  let l4 := <["data" := PyRows data]> l3 in
  df ← lift (pd_DataFrame data transactions_columns);
  let l5 := <["df_entities" := PyFrame df]> l4 in
  try_fetch "users" (fun data =>
  let l6 := <["data" := PyRows data]> l5 in
  df ← lift (pd_DataFrame data users_columns);
  let l7 := <["df_entities" := PyFrame df]> l6 in
  lift (a ← load_name l7 "df_entities";
        b ← load_name l7 "df_transactions";
        c ← load_name l7 "df_users";
        mret (PyTuple3 a b c))))).

(** ** [update_data] *)

Section UpdateData.

(** Python's [int()] on a [str] and on a [float] is taken as given. *)
Variable int_of_str : string → result Z.
Variable int_of_float : Z → result Z.

Definition py_int (v : value) : result Z :=
  match v with
  | VInt z => Ok z
  | VStr s => int_of_str s
  | VFloat b => int_of_float b
  | VNone => Raise TypeError
  end.

(** The body of the first loop: [df.iloc[i].to_dict()] then
    [row_dict.update(delta)]. *)
Definition row_dict (df : DataFrame) (i : Z) (delta : row) : result row :=
  r ← iloc df i;
  mret (delta ∪ r).

(** [rows = []; for i, delta in deltas.items(): ... rows.append(row_dict)] *)
Fixpoint build_rows (df : DataFrame) (deltas : list (Z * row))
  : result (list row) :=
  match deltas with
  | [] => Ok []
  | (i, delta) :: rest =>
      r ← row_dict df i delta;
      rows ← build_rows df rest;
      mret (r :: rows)
  end.

(** The parameter object of a delete keyed [k]. *)
Definition delete_key (k : Z) : parameters := dict {[ "id" := VInt k ]}.

(** One item of the generator [{'id': int(df.loc[i, 'id'])} for i in ...]. *)
Definition delete_parameters (df : DataFrame) (i : Z) : result parameters :=
  v ← loc df i "id";
  k ← py_int v;
  mret (delete_key k).

(** Position [p] of the frame holds a row whose [id] reads as the integer
    [k]. *)
Definition resolves_to (df : DataFrame) (p k : Z) : Prop :=
  0 <= p ∧
  ∃ r v, df !! Z.to_nat p = Some r ∧ r !! "id" = Some v ∧ py_int v = Ok k.

(** [if changes['edited_rows']: ...]; the deltas are read from the session
    state, the argument is only tested. *)
Definition edited_block (sess : session_state) (df : DataFrame)
           (changes : editing_state) : M unit :=
  if truthy (edited_rows changes) then
    let deltas := edited_rows (inventory_table sess) in
    rows ← lift (build_rows df deltas);
    executemany UPDATE (map (fun r => Ok (dict r)) rows)
  else mret tt.

(** [if changes['added_rows']: ...] *)
Definition added_block (changes : editing_state) : M unit :=
  if truthy (added_rows changes) then
    executemany INSERT
      (map (fun r => Ok (defaultdict_None r)) (added_rows changes))
  else mret tt.

(** [if changes['deleted_rows']: ...] *)
Definition deleted_block (df : DataFrame) (changes : editing_state) : M unit :=
  if truthy (deleted_rows changes) then
    executemany DELETE
      (map (delete_parameters df) (deleted_rows changes))
  else mret tt.

Definition update_data (sess : session_state) (df : DataFrame)
           (changes : editing_state) : M unit :=
  edited_block sess df changes;;
  added_block changes;;
  deleted_block df changes;;
  commit.

End UpdateData.

(** ** [connect_db] and the top of the page *)

(** The database file next to the script: absent, or holding tables. *)
Definition database_file : Type := option (gmap string table).

(** [connect_db()]: whether the file exists is read before
    [sqlite3.connect] opens it. *)
Definition connect_db (file : database_file) : connection * bool :=
  let db_already_exists := match file with Some _ => true | None => false end in
  let conn := {| tables := default ∅ file; in_transaction := false; log := [] |} in
  let db_was_just_created := negb db_already_exists in
  (conn, db_was_just_created).

(** The script from [connect_db()] to [df = load_data(conn)]: the value bound
    to [df], or the exception that ends the run, and the connection. *)
Definition page_start (file : database_file) : result pyobj * connection :=
  let '(conn, db_was_just_created) := connect_db file in
  ((if db_was_just_created then initialize_data else mret tt);;
   load_data) conn.

(** What the file holds once the run is over (the [CREATE TABLE] statements
    run outside any transaction). *)
Definition file_after (c : connection) : database_file := Some (tables c).

(** [any(len(v) for v in st.session_state.inventory_table.values())] *)
Definition has_uncommitted_changes (sess : session_state) : bool :=
  let D := inventory_table sess in
  existsb (fun n => negb (Nat.eqb n 0))
          [length (edited_rows D); length (added_rows D); length (deleted_rows D)].

(** ** Vocabulary for the statements below *)

#[export] Instance statement_eq_dec : EqDecision statement.
Proof. solve_decision. Defined.

(** The columns of the inventory table, as the [INSERT] lists them. *)
Definition inventory_columns : list string := columns_of INSERT.

(** The connection knows an [inventory] table with these columns. *)
Definition has_inventory_table (c : connection) : Prop :=
  ∃ t, tables c !! "inventory" = Some t ∧ inventory_columns ⊆ t_columns t.

(** sqlite3 finds a value for every placeholder of [s] in [p]. *)
Definition bindable (s : statement) (p : parameters) : Prop :=
  is_ok (bind_parameters s p) = true.

Definition in_int64 (k : Z) : Prop := - 2 ^ 63 <= k < 2 ^ 63.

(** What a call added to the log of the connection. *)
Definition since (c c' : connection) : list event :=
  drop (length (log c)) (log c').

(** The parameter objects with which statement [s] was executed. *)
Definition executed_on (s : statement) (evs : list event) : list parameters :=
  omap (fun ev =>
          match ev with
          | Exec s' p => if decide (s' = s) then Some p else None
          | _ => None
          end) evs.

(** The value a statement is keyed by: what is bound to [:id]. *)
Definition key_of (p : parameters) : result value := get_parameter p "id".

(** Some block of [update_data] is entered. *)
Definition any_block (D : editing_state) : bool :=
  truthy (edited_rows D) || truthy (added_rows D) || truthy (deleted_rows D).

(** How far [execute_each] gets, and how it ends. *)
Fixpoint executed (s : statement) (ps : list (result parameters))
  : list parameters :=
  match ps with
  | Ok p :: rest =>
      if is_ok (bind_parameters s p) then p :: executed s rest else []
  | _ => []
  end.

Fixpoint outcome (s : statement) (ps : list (result parameters)) : result unit :=
  match ps with
  | [] => Ok tt
  | Raise e :: _ => Raise e
  | Ok p :: rest =>
      match bind_parameters s p with
      | Ok _ => outcome s rest
      | Raise e => Raise e
      end
  end.

Definition prepared (s : statement) (c : connection) : bool :=
  match tables c !! table_of s with
  | Some t => forallb (fun col => bool_decide (col ∈ t_columns t)) (columns_of s)
  | None => false
  end.

Definition begin_events (c : connection) : list event :=
  if in_transaction c then [] else [Begin].

(** [c'] is [c] after some statements were executed and none committed:
    [ran] tells whether a statement got past [prepare], [evs] are the
    executions. *)
Definition extends (c c' : connection) (ran : bool) (evs : list event) : Prop :=
  tables c' = tables c ∧
  in_transaction c' = in_transaction c || ran ∧
  log c' = log c ++ (if negb (in_transaction c) && ran then [Begin] else []) ++ evs ∧
  (evs ≠ [] → ran = true).

(** The conditions under which the edited block cannot fail. *)
Definition edits_go_through (sess : session_state) (df : DataFrame)
           (D : editing_state) (rows : list row) : Prop :=
  if truthy (edited_rows D) then
    build_rows df (edited_rows (inventory_table sess)) = Ok rows ∧
    Forall (fun r => bindable UPDATE (dict r)) rows
  else rows = [].

(** No column of [l1] is a column of [l2]. *)
Definition disjoint_columns (l1 l2 : list string) : bool :=
  forallb (fun col => negb (bool_decide (col ∈ l2))) l1.

(** The tables after [CREATE TABLE IF NOT EXISTS name]. *)
Definition ensure_table (name : string) (cols : list string)
           (ts : gmap string table) : gmap string table :=
  match ts !! name with
  | Some _ => ts
  | None => <[name := {| t_columns := cols; t_rows := [] |}]> ts
  end.

(** The frames of [load_data] that can be built from the stored rows. *)
Definition frame_ok (t : table) (cols : list string) : bool :=
  is_ok (pd_DataFrame (t_rows t) cols).

(** ** Sample data *)

(** A database holding an empty [inventory] table. *)
Definition inventory_db : connection :=
  {| tables := {[ "inventory" := {| t_columns := inventory_columns; t_rows := [] |} ]};
     in_transaction := false;
     log := [] |}.

(** The connection as [initialize_data] leaves it on a new file. *)
Definition initialized_db : connection := (initialize_data new_database).2.

(** A database, made by other means, that holds the three tables which
    [load_data] reads, all empty. *)
Definition three_table_db : connection :=
  {| tables :=
       <["users" := {| t_columns := users_columns; t_rows := [] |}]>
         (<["transactions" := {| t_columns := transactions_columns; t_rows := [] |}]>
            (<["entities" := {| t_columns := entities_columns; t_rows := [] |}]> ∅));
     in_transaction := false;
     log := [] |}.

Definition item (id : Z) (name : string) (units_left reorder_point : Z) : row :=
  list_to_map
    [("id", VInt id); ("item_name", VStr name); ("price", VNone);
     ("units_sold", VInt 0); ("units_left", VInt units_left);
     ("cost_price", VNone); ("reorder_point", VInt reorder_point);
     ("description", VStr "")].

(** The three-column snapshot row [{id:1, units_left:5, reorder_point:2}]. *)
Definition short_row : row :=
  list_to_map [("id", VInt 1); ("units_left", VInt 5); ("reorder_point", VInt 2)].

Definition only_id (id : Z) : row := {[ "id" := VInt id ]}.

(** An added row with a column that the table does not have. *)
Definition widget_row : row :=
  list_to_map [("id", VInt 2); ("item_name", VStr "Widget"); ("colour", VStr "red")].

Definition edits (l : list (Z * row)) : editing_state :=
  {| edited_rows := l; added_rows := []; deleted_rows := [] |}.

Definition session_of (D : editing_state) : session_state :=
  {| inventory_table := D |}.

Definition empty_diff : editing_state :=
  {| edited_rows := []; added_rows := []; deleted_rows := [] |}.

(** Stand-ins for [int()] on strings and floats for data whose ids are all
    integers, where neither is ever called. *)
Definition no_str : string → result Z := fun _ => Raise ValueError.
Definition no_float : Z → result Z := fun _ => Raise ValueError.

(** * Properties *)

(** ** Running code against a connection *)

Lemma bind_eq {A B} (m : M A) (k : A → M B) c :
  (m ≫= k) c = match m c with
               | (Ok a, c') => k a c'
               | (Raise e, c') => (Raise e, c')
               end.
Proof. reflexivity. Qed.

Lemma seq_eq (m k : M unit) c :
  (m;; k) c = match (m c).1 with
              | Ok _ => k (m c).2
              | Raise e => (Raise e, (m c).2)
              end.
Proof. rewrite bind_eq. by destruct (m c) as [[[]|e] c']. Qed.

Lemma with_log_same c : with_log c (in_transaction c) (log c) = c.
Proof. by destruct c. Qed.

Lemma prepare_eq s c :
  prepare s c = (if prepared s c then Ok tt else Raise OperationalError, c).
Proof.
  unfold prepare, prepared. destruct (tables c !! table_of s) as [t|]; [|done].
  by destruct (forallb _ _).
Qed.

Lemma commit_eq c :
  commit c =
    (Ok tt, if in_transaction c then with_log c false (log c ++ [Commit]) else c).
Proof. unfold commit. by destruct (in_transaction c). Qed.

Lemma execute_each_eq s ps c :
  execute_each s ps c =
    (outcome s ps,
     with_log c (in_transaction c) (log c ++ map (Exec s) (executed s ps))).
Proof.
  revert c. induction ps as [|[p|e] rest IH]; intros c; simpl.
  - by rewrite app_nil_r, with_log_same.
  - rewrite !bind_eq. unfold lift at 1. simpl.
    rewrite bind_eq. unfold lift at 1.
    destruct (bind_parameters s p) as [vs|e]; simpl.
    + rewrite bind_eq. unfold step at 1. rewrite IH. simpl.
      by rewrite <- app_assoc.
    + by rewrite app_nil_r, with_log_same.
  - rewrite bind_eq. unfold lift. simpl. by rewrite app_nil_r, with_log_same.
Qed.

(** [executemany] in one piece: nothing happens unless the statement
    compiles; then a transaction is open and the statements bound so far are
    in the log, whether or not the iteration came to its end. *)
Lemma executemany_eq s ps c :
  executemany s ps c =
    if prepared s c then
      (outcome s ps,
       with_log c true (log c ++ begin_events c ++ map (Exec s) (executed s ps)))
    else (Raise OperationalError, c).
Proof.
  unfold executemany. rewrite bind_eq, prepare_eq.
  destruct (prepared s c); [|done].
  rewrite bind_eq. unfold begin_transaction at 1, begin_events.
  destruct (in_transaction c) eqn:Ht; rewrite execute_each_eq; simpl.
  - by rewrite Ht.
  - by rewrite <- app_assoc.
Qed.

Lemma executed_prefix s ps : map Ok (executed s ps) `prefix_of` ps.
Proof.
  induction ps as [|[p|e] rest IH]; simpl; try apply prefix_nil.
  destruct (is_ok _); simpl; [|apply prefix_nil].
  by apply prefix_cons.
Qed.

Lemma outcome_ok_executed s ps :
  outcome s ps = Ok tt → map Ok (executed s ps) = ps.
Proof.
  induction ps as [|[p|e] rest IH]; simpl; try done.
  destruct (bind_parameters s p); simpl; [|done].
  intros H. by rewrite IH.
Qed.

Lemma outcome_bindable s qs :
  Forall (bindable s) qs → outcome s (map Ok qs) = Ok tt.
Proof.
  induction 1 as [|q qs Hq _ IH]; simpl; [done|].
  unfold bindable in Hq. by destruct (bind_parameters s q).
Qed.

Lemma map_Ok_prefix {A B} (f : A → B) (qs : list B) (xs : list A) :
  map Ok qs `prefix_of` map (fun x => Ok (f x)) xs → qs `prefix_of` map f xs.
Proof.
  revert xs. induction qs as [|q qs IH]; intros xs H; [apply prefix_nil|].
  destruct xs as [|x xs]; simpl in *.
  - destruct H as [k Hk]. discriminate Hk.
  - pose proof (prefix_cons_inv_1 _ _ _ _ H) as [= ->].
    apply prefix_cons, IH. by apply prefix_cons_inv_2 in H.
Qed.

Lemma map_Ok_inj {A} (l1 l2 : list A) : map Ok l1 = map Ok l2 → l1 = l2.
Proof.
  revert l2. induction l1 as [|a l1 IH]; intros [|b l2]; simpl; try done.
  intros [= -> H]. f_equal. by apply IH.
Qed.

(** ** Connections that only grow *)

Lemma extends_refl c : extends c c false [].
Proof.
  repeat split; simpl.
  - by rewrite orb_false_r.
  - by rewrite andb_false_r, app_nil_r.
  - done.
Qed.

Lemma extends_trans c c1 c2 r1 r2 e1 e2 :
  extends c c1 r1 e1 → extends c1 c2 r2 e2 → extends c c2 (r1 || r2) (e1 ++ e2).
Proof.
  intros (Ht1 & Hi1 & Hl1 & Hn1) (Ht2 & Hi2 & Hl2 & Hn2).
  repeat split.
  - congruence.
  - rewrite Hi2, Hi1. by rewrite orb_assoc.
  - rewrite Hl2, Hl1, Hi1.
    destruct (in_transaction c), r1, r2; simpl; rewrite <- ?app_assoc; simpl; try done.
    destruct e1; [done|]. by discriminate Hn1.
  - intros Hne. destruct r1; [done|]. destruct r2; [done|].
    destruct e1; [|by discriminate Hn1].
    destruct e2; [done|]. by discriminate Hn2.
Qed.

Lemma executemany_extends s ps c :
  ∃ ran qs,
    extends c (executemany s ps c).2 ran (map (Exec s) qs) ∧
    map Ok qs `prefix_of` ps ∧
    ((executemany s ps c).1 = Ok tt → ran = true ∧ map Ok qs = ps).
Proof.
  rewrite executemany_eq.
  exists (prepared s c), (if prepared s c then executed s ps else []).
  destruct (prepared s c); simpl.
  - split.
    + repeat split; simpl.
      * by rewrite orb_true_r.
      * unfold begin_events. rewrite andb_true_r. by destruct (in_transaction c).
    + split; [apply executed_prefix|].
      intros H. split; [done|]. by apply outcome_ok_executed.
  - split; [apply extends_refl|]. split; [apply prefix_nil|]. done.
Qed.

Lemma since_app c c' evs : log c' = log c ++ evs → since c c' = evs.
Proof. unfold since. intros ->. by rewrite drop_app_length. Qed.

Lemma executed_on_app s l1 l2 :
  executed_on s (l1 ++ l2) = executed_on s l1 ++ executed_on s l2.
Proof. unfold executed_on. apply omap_app. Qed.

Lemma executed_on_exec s s' p l :
  executed_on s (Exec s' p :: l) =
    if decide (s' = s) then p :: executed_on s l else executed_on s l.
Proof. unfold executed_on. simpl. by destruct (decide (s' = s)). Qed.

Lemma executed_on_same s qs : executed_on s (map (Exec s) qs) = qs.
Proof.
  induction qs as [|q qs IH]; [done|]. cbn [map].
  by rewrite executed_on_exec, decide_True, IH.
Qed.

Lemma executed_on_other s s' qs : s' ≠ s → executed_on s (map (Exec s') qs) = [].
Proof.
  intros Hne. induction qs as [|q qs IH]; [done|]. cbn [map].
  by rewrite executed_on_exec, decide_False.
Qed.

Lemma table_of_inventory s : table_of s = "inventory".
Proof. by destruct s. Qed.

Lemma columns_of_inventory s col :
  col ∈ columns_of s → col ∈ inventory_columns.
Proof.
  unfold inventory_columns, columns_of.
  destruct s; simpl; rewrite ?elem_of_cons, ?elem_of_nil; tauto.
Qed.

Lemma has_inventory_prepared c s : has_inventory_table c → prepared s c = true.
Proof.
  intros (t & Ht & Hsub). unfold prepared. rewrite table_of_inventory, Ht.
  apply forallb_forall. intros col Hin. apply bool_decide_eq_true.
  apply Hsub, (columns_of_inventory s). by apply list_elem_of_In.
Qed.

Lemma has_inventory_tables c c' :
  tables c' = tables c → has_inventory_table c → has_inventory_table c'.
Proof. unfold has_inventory_table. by intros ->. Qed.

(** ** Looking rows up *)


Lemma iloc_raises (df : DataFrame) p e : iloc df p = Raise e → e = IndexError.
Proof.
  unfold iloc. destruct (_ && _); [|congruence].
  destruct (df !! _); congruence.
Qed.

Lemma iloc_out_of_range (df : DataFrame) p :
  ¬ (- Z.of_nat (length df) <= p < Z.of_nat (length df)) →
  iloc df p = Raise IndexError.
Proof.
  intros Hp. unfold iloc.
  destruct (Z.ltb_spec p 0).
  - destruct (Z.leb_spec 0 (Z.of_nat (length df) + p)); [lia|]. done.
  - destruct (Z.leb_spec 0 p); [|lia].
    destruct (Z.ltb_spec p (Z.of_nat (length df))); [lia|]. done.
Qed.

Lemma loc_out_of_range (df : DataFrame) p col :
  ¬ (0 <= p < Z.of_nat (length df)) → loc df p col = Raise KeyError.
Proof.
  intros Hp. unfold loc.
  destruct (Z.leb_spec 0 p); [|done].
  destruct (Z.ltb_spec p (Z.of_nat (length df))); [lia|]. done.
Qed.

Lemma build_rows_elem (df : DataFrame) deltas rows p m :
  build_rows df deltas = Ok rows → (p, m) ∈ deltas →
  ∃ r, iloc df p = Ok r ∧ m ∪ r ∈ rows.
Proof.
  revert rows. induction deltas as [|[i delta] rest IH]; intros rows Hb Hin.
  - by apply not_elem_of_nil in Hin.
  - simpl in Hb. unfold row_dict in Hb.
    destruct (iloc df i) as [r|e] eqn:Hi; simpl in Hb; [|done].
    destruct (build_rows df rest) as [rows'|e] eqn:Hr; simpl in Hb; [|done].
    injection Hb as <-.
    apply elem_of_cons in Hin as [[= -> ->]|Hin].
    + exists r. split; [done|]. apply elem_of_cons. by left.
    + destruct (IH rows' eq_refl Hin) as (r' & Hr' & Hin').
      exists r'. split; [done|]. apply elem_of_cons. by right.
Qed.



Lemma build_rows_stale (df : DataFrame) deltas p m :
  (p, m) ∈ deltas →
  ¬ (- Z.of_nat (length df) <= p < Z.of_nat (length df)) →
  build_rows df deltas = Raise IndexError.
Proof.
  intros Hin Hp. induction deltas as [|[i delta] rest IH].
  - by apply not_elem_of_nil in Hin.
  - simpl. unfold row_dict.
    destruct (iloc df i) as [r|e] eqn:Hi; simpl.
    + apply elem_of_cons in Hin as [[= -> ->]|Hin].
      * by rewrite iloc_out_of_range in Hi.
      * by rewrite IH.
    + by rewrite (iloc_raises _ _ _ Hi).
Qed.

(** ** The three blocks of [update_data] *)

Section Blocks.

Variable int_of_str : string → result Z.
Variable int_of_float : Z → result Z.

#[local] Abbreviation delete_parameters' :=
  (delete_parameters int_of_str int_of_float).
#[local] Abbreviation resolves_to' := (resolves_to int_of_str int_of_float).
#[local] Abbreviation deleted_block' := (deleted_block int_of_str int_of_float).
#[local] Abbreviation update_data' := (update_data int_of_str int_of_float).

Lemma edited_block_spec sess df D c :
  ∃ ran us,
    extends c (edited_block sess df D c).2 ran (map (Exec UPDATE) us) ∧
    (us = [] ∨
     ∃ rows, truthy (edited_rows D) = true ∧
             build_rows df (edited_rows (inventory_table sess)) = Ok rows ∧
             us `prefix_of` map dict rows) ∧
    ((edited_block sess df D c).1 = Ok tt →
     ran = truthy (edited_rows D) ∧
     if truthy (edited_rows D) then
       ∃ rows, build_rows df (edited_rows (inventory_table sess)) = Ok rows ∧
               us = map dict rows
     else us = []).
Proof.
  unfold edited_block. destruct (truthy (edited_rows D)) eqn:Hg.
  - rewrite bind_eq. unfold lift.
    destruct (build_rows df _) as [rows|e] eqn:Hrows.
    + destruct (executemany_extends UPDATE
                  (map (fun r => Ok (dict r)) rows) c) as (ran & us & HJ & Hp & Hok).
      exists ran, us. split; [done|]. split.
      * right. exists rows. repeat split; try done. by apply map_Ok_prefix.
      * intros H. destruct (Hok H) as [-> Heq]. split; [done|].
        exists rows. split; [done|].
        apply map_Ok_inj. by rewrite Heq, map_map.
    + exists false, []. split; [apply extends_refl|]. split; [by left|]. done.
  - exists false, []. split; [apply extends_refl|]. split; [by left|]. done.
Qed.

Lemma added_block_spec D c :
  ∃ ran ins,
    extends c (added_block D c).2 ran (map (Exec INSERT) ins) ∧
    ins `prefix_of` map defaultdict_None (added_rows D) ∧
    ((added_block D c).1 = Ok tt →
     ran = truthy (added_rows D) ∧ ins = map defaultdict_None (added_rows D)).
Proof.
  unfold added_block. destruct (truthy (added_rows D)) eqn:Hg.
  - destruct (executemany_extends INSERT
                (map (fun r => Ok (defaultdict_None r)) (added_rows D)) c)
      as (ran & ins & HJ & Hp & Hok).
    exists ran, ins. split; [done|]. split; [by apply map_Ok_prefix|].
    intros H. destruct (Hok H) as [-> Heq]. split; [done|].
    apply map_Ok_inj. by rewrite Heq, map_map.
  - exists false, []. split; [apply extends_refl|]. split; [apply prefix_nil|].
    intros _. split; [done|]. by destruct (added_rows D).
Qed.

Lemma deleted_block_spec df D c :
  ∃ ran dels,
    extends c (deleted_block' df D c).2 ran (map (Exec DELETE) dels) ∧
    map Ok dels `prefix_of` map (delete_parameters' df) (deleted_rows D) ∧
    ((deleted_block' df D c).1 = Ok tt →
     ran = truthy (deleted_rows D) ∧
     map Ok dels = map (delete_parameters' df) (deleted_rows D)).
Proof.
  unfold deleted_block. destruct (truthy (deleted_rows D)) eqn:Hg.
  - destruct (executemany_extends DELETE
                (map (delete_parameters' df) (deleted_rows D)) c)
      as (ran & dels & HJ & Hp & Hok).
    exists ran, dels. split; [done|]. split; [done|].
    intros H. by destruct (Hok H) as [-> Heq].
  - exists false, []. split; [apply extends_refl|]. split; [apply prefix_nil|].
    intros _. split; [done|]. by destruct (deleted_rows D).
Qed.

(** Everything [update_data] can do to a connection: it appends to the log,
    in this order, at most one [Begin], the updates, the inserts, the
    deletes, and a [Commit] exactly when it returns. *)
Lemma update_data_trace sess df D c :
  ∃ ran us ins dels,
    let r := (update_data' sess df D c).1 in
    let c' := (update_data' sess df D c).2 in
    tables c' = tables c ∧
    log c' =
      log c ++ (if negb (in_transaction c) && ran then [Begin] else [])
            ++ (map (Exec UPDATE) us
                ++ map (Exec INSERT) ins
                ++ map (Exec DELETE) dels)
            ++ (if is_ok r && (in_transaction c || ran) then [Commit] else []) ∧
    in_transaction c' = (if is_ok r then false else in_transaction c || ran) ∧
    (us ≠ [] ∨ ins ≠ [] ∨ dels ≠ [] → ran = true) ∧
    (us = [] ∨
     ∃ rows, truthy (edited_rows D) = true ∧
             build_rows df (edited_rows (inventory_table sess)) = Ok rows ∧
             us `prefix_of` map dict rows) ∧
    ins `prefix_of` map defaultdict_None (added_rows D) ∧
    map Ok dels `prefix_of` map (delete_parameters' df) (deleted_rows D) ∧
    ((edited_block sess df D c).1 = Ok tt →
     if truthy (edited_rows D) then
       ∃ rows, build_rows df (edited_rows (inventory_table sess)) = Ok rows ∧
               us = map dict rows
     else us = []) ∧
    (r = Ok tt →
     ran = any_block D ∧
     ins = map defaultdict_None (added_rows D) ∧
     map Ok dels = map (delete_parameters' df) (deleted_rows D)).
Proof.
  destruct (edited_block_spec sess df D c) as (r1 & us & J1 & P1 & K1).
  set (c1 := (edited_block sess df D c).2) in *.
  destruct (added_block_spec D c1) as (r2 & ins & J2 & P2 & K2).
  set (c2 := (added_block D c1).2) in *.
  destruct (deleted_block_spec df D c2) as (r3 & dels & J3 & P3 & K3).
  set (c3 := (deleted_block' df D c2).2) in *.
  unfold update_data. rewrite seq_eq. fold c1.
  destruct ((edited_block sess df D c).1) as [[]|e1] eqn:E1; simpl.
  2:{ exists r1, us, [], []. destruct J1 as (Ht & Hi & Hl & Hn).
      simpl. rewrite app_nil_r. repeat split; try done.
      - by rewrite Hl, app_nil_r.
      - intros [H|[H|H]]; try done. by apply Hn; destruct us.
      - apply prefix_nil.
      - apply prefix_nil. }
  destruct (K1 eq_refl) as [-> K1'].
  rewrite seq_eq. fold c2.
  destruct ((added_block D c1).1) as [[]|e2] eqn:E2; simpl.
  2:{ pose proof (extends_trans _ _ _ _ _ _ _ J1 J2) as (Ht & Hi & Hl & Hn).
      exists (truthy (edited_rows D) || r2), us, ins, [].
      simpl. rewrite !app_nil_r. repeat split; try done.
      - intros [H|[H|H]]; try done; apply Hn; destruct us, ins; done.
      - apply prefix_nil. }
  destruct (K2 eq_refl) as [-> K2'].
  rewrite seq_eq. fold c3.
  pose proof (extends_trans _ _ _ _ _ _ _ (extends_trans _ _ _ _ _ _ _ J1 J2) J3)
    as (Ht & Hi & Hl & Hn).
  rewrite <- app_assoc in Hl, Hn.
  exists (truthy (edited_rows D) || truthy (added_rows D) || r3), us, ins, dels.
  destruct ((deleted_block' df D c2).1) as [[]|e3] eqn:E3; simpl.
  2:{ rewrite !app_nil_r. repeat split; try done.
      intros [H|[H|H]]; apply Hn; destruct us, ins, dels; done. }
  destruct (K3 eq_refl) as [-> K3'].
  rewrite commit_eq. simpl. rewrite Hi.
  fold (any_block D) in *.
  destruct (in_transaction c || any_block D) eqn:Hany; simpl.
  - rewrite Hl, Ht. rewrite <- !app_assoc. repeat split; try done.
    intros [H|[H|H]]; apply Hn; destruct us, ins, dels; done.
  - rewrite Hl, Ht. rewrite !app_nil_r. repeat split; try done.
    intros [H|[H|H]]; apply Hn; destruct us, ins, dels; done.
Qed.

(** ** When [update_data] goes through *)

Lemma delete_key_bindable k : in_int64 k → bindable DELETE (delete_key k).
Proof.
  intros [H1 H2]. unfold bindable, bind_parameters, delete_key. simpl.
  rewrite lookup_singleton_eq. simpl.
  destruct (Z.leb_spec (- 2 ^ 63) k); [|lia].
  destruct (Z.ltb_spec k (2 ^ 63)); [|lia]. done.
Qed.

Lemma resolves_delete_parameters df p k :
  resolves_to' df p k → delete_parameters' df p = Ok (delete_key k).
Proof.
  intros (Hp & r & v & Hr & Hv & Hk).
  unfold delete_parameters, loc.
  pose proof (lookup_lt_Some _ _ _ Hr) as Hlt.
  destruct (Z.leb_spec 0 p); [|lia].
  destruct (Z.ltb_spec p (Z.of_nat (length df))); [|lia]. simpl.
  rewrite Hr, Hv. simpl. by rewrite Hk.
Qed.

Lemma resolved_delete_parameters df ps ks :
  Forall2 (fun p k => resolves_to' df p k ∧ in_int64 k) ps ks →
  map (delete_parameters' df) ps = map Ok (map delete_key ks) ∧
  Forall (bindable DELETE) (map delete_key ks).
Proof.
  induction 1 as [|p k ps ks [Hp Hk] _ [IH1 IH2]]; simpl; [done|].
  rewrite (resolves_delete_parameters _ _ _ Hp), IH1. split; [done|].
  constructor; [by apply delete_key_bindable|done].
Qed.

Lemma edited_block_ok sess df D c rows :
  has_inventory_table c →
  build_rows df (edited_rows (inventory_table sess)) = Ok rows →
  Forall (fun r => bindable UPDATE (dict r)) rows →
  (edited_block sess df D c).1 = Ok tt.
Proof.
  intros Hinv Hrows Hb. unfold edited_block.
  destruct (truthy (edited_rows D)); [|done].
  rewrite bind_eq. unfold lift. rewrite Hrows.
  rewrite executemany_eq, has_inventory_prepared by done. simpl.
  rewrite <- (map_map dict Ok). apply outcome_bindable. by apply Forall_map.
Qed.

Lemma added_block_ok D c :
  has_inventory_table c →
  Forall (fun r => bindable INSERT (defaultdict_None r)) (added_rows D) →
  (added_block D c).1 = Ok tt.
Proof.
  intros Hinv Hb. unfold added_block.
  destruct (truthy (added_rows D)); [|done].
  rewrite executemany_eq, has_inventory_prepared by done. simpl.
  rewrite <- (map_map defaultdict_None Ok). apply outcome_bindable.
  by apply Forall_map.
Qed.

Lemma deleted_block_ok df D c ks :
  has_inventory_table c →
  Forall2 (fun p k => resolves_to' df p k ∧ in_int64 k) (deleted_rows D) ks →
  (deleted_block' df D c).1 = Ok tt.
Proof.
  intros Hinv Hdel. unfold deleted_block.
  destruct (truthy (deleted_rows D)); [|done].
  rewrite executemany_eq, has_inventory_prepared by done. simpl.
  destruct (resolved_delete_parameters _ _ _ Hdel) as [-> Hb].
  by apply outcome_bindable.
Qed.

(** With the table in place, rows that resolve and bind, and deleted
    positions that resolve, the call returns and its log is known in full. *)
Lemma update_data_success sess df D c rows ks :
  has_inventory_table c →
  edits_go_through sess df D rows →
  Forall (fun r => bindable INSERT (defaultdict_None r)) (added_rows D) →
  Forall2 (fun p k => resolves_to' df p k ∧ in_int64 k) (deleted_rows D) ks →
  let c' := (update_data' sess df D c).2 in
  (update_data' sess df D c).1 = Ok tt ∧
  tables c' = tables c ∧
  in_transaction c' = false ∧
  since c c' =
    (if negb (in_transaction c) && any_block D then [Begin] else [])
    ++ (map (Exec UPDATE) (map dict rows)
        ++ map (Exec INSERT) (map defaultdict_None (added_rows D))
        ++ map (Exec DELETE) (map delete_key ks))
    ++ (if in_transaction c || any_block D then [Commit] else []).
Proof.
  intros Hinv Hed Had Hdel.
  assert (E1 : (edited_block sess df D c).1 = Ok tt).
  { unfold edits_go_through in Hed. destruct (truthy (edited_rows D)) eqn:Hg.
    - destruct Hed. by eapply edited_block_ok.
    - unfold edited_block. by rewrite Hg. }
  assert (Hr : (update_data' sess df D c).1 = Ok tt).
  { destruct (edited_block_spec sess df D c) as (r1 & us & (Ht1 & _) & _).
    set (c1 := (edited_block sess df D c).2) in *.
    destruct (added_block_spec D c1) as (r2 & ins & (Ht2 & _) & _).
    set (c2 := (added_block D c1).2) in *.
    unfold update_data. rewrite seq_eq, E1. fold c1.
    rewrite seq_eq, added_block_ok; [|by apply (has_inventory_tables c)|done].
    fold c2.
    rewrite seq_eq, (deleted_block_ok _ _ _ ks); [|by apply (has_inventory_tables c); [congruence|] |done].
    by rewrite commit_eq. }
  destruct (update_data_trace sess df D c)
    as (ran & us & ins & dels & Ht & Hl & Hi & _ & _ & _ & _ & Ked & Kok).
  simpl in *. rewrite Hr in *. simpl in *.
  destruct (Kok eq_refl) as (-> & -> & Hdels).
  destruct (resolved_delete_parameters _ _ _ Hdel) as [Hmap _].
  rewrite Hmap in Hdels. apply map_Ok_inj in Hdels as ->.
  assert (us = map dict rows) as ->.
  { specialize (Ked E1). unfold edits_go_through in Hed.
    destruct (truthy (edited_rows D)).
    - destruct Ked as (rows' & Hrows' & ->). destruct Hed as [Hrows _].
      rewrite Hrows in Hrows'. by injection Hrows' as <-.
    - by rewrite Hed. }
  repeat split; try done.
  by apply since_app.
Qed.

End Blocks.

(** ** The diff with nothing in it *)

(** C7. For every snapshot, session and connection, the empty diff
    ([edited_rows = {}], [added_rows = []], [deleted_rows = []]) makes
    [update_data] execute no statement and open no transaction: the call
    returns, and the only thing it can add to the log is the [Commit] of a
    transaction that was already open before the call. *)
Theorem empty_diff_executes_nothing
        (int_of_str : string → result Z) (int_of_float : Z → result Z)
        (sess : session_state) (df : DataFrame) (c : connection) :
  let c' := (update_data int_of_str int_of_float sess df empty_diff c).2 in
  (update_data int_of_str int_of_float sess df empty_diff c).1 = Ok tt ∧
  (∀ s, executed_on s (since c c') = []) ∧
  (Begin ∉ since c c') ∧
  since c c' = (if in_transaction c then [Commit] else []) ∧
  (if in_transaction c then True else c' = c).
Proof.
  unfold update_data, edited_block, added_block, deleted_block, empty_diff.
  simpl. rewrite !bind_eq. simpl. rewrite commit_eq. simpl.
  destruct (in_transaction c) eqn:Ht; simpl.
  - assert (Hs : since c (with_log c false (log c ++ [Commit])) = [Commit])
      by (by apply since_app).
    rewrite Hs. repeat split; try done.
    intros H. apply list_elem_of_singleton in H. discriminate H.
  - assert (Hs : since c c = []) by (apply since_app; by rewrite app_nil_r).
    rewrite Hs. repeat split; try done. apply not_elem_of_nil.
Qed.

(** ** Deleted rows *)

(** C2 (as amended). Every entry of the diff's [deleted_rows] is read as a
    position in the snapshot, not as a primary-key value: when the inventory
    table exists, the edited and added blocks go through, and each deleted
    position [p] holds a row whose [id] reads as the integer [k] of the
    signed 64-bit range, [update_data] returns and the deletes it executed
    are exactly one per entry, in order, each keyed by the [id] of the row
    at that position. *)
Theorem deleted_positions_resolve_to_keys
        (int_of_str : string → result Z) (int_of_float : Z → result Z)
        (sess : session_state) (df : DataFrame) (D : editing_state)
        (c : connection) (rows : list row) (ks : list Z) :
  has_inventory_table c →
  edits_go_through sess df D rows →
  Forall (fun r => bindable INSERT (defaultdict_None r)) (added_rows D) →
  Forall2 (fun p k => resolves_to int_of_str int_of_float df p k ∧ in_int64 k)
          (deleted_rows D) ks →
  let c' := (update_data int_of_str int_of_float sess df D c).2 in
  (update_data int_of_str int_of_float sess df D c).1 = Ok tt ∧
  executed_on DELETE (since c c') = map delete_key ks ∧
  Forall2 (fun p q => ∃ k, resolves_to int_of_str int_of_float df p k ∧
                           key_of q = Ok (VInt k))
          (deleted_rows D) (executed_on DELETE (since c c')).
Proof.
  intros Hinv Hed Had Hdel.
  destruct (update_data_success int_of_str int_of_float sess df D c rows ks
              Hinv Hed Had Hdel) as (Hr & _ & _ & Hs).
  simpl. split; [done|].
  assert (Hex : executed_on DELETE
                  (since c (update_data int_of_str int_of_float sess df D c).2)
                = map delete_key ks).
  { rewrite Hs, !executed_on_app.
    rewrite (executed_on_other _ UPDATE) by done.
    rewrite (executed_on_other _ INSERT) by done.
    rewrite executed_on_same.
    destruct (negb _ && _), (_ || _); simpl; by rewrite ?app_nil_r. }
  split; [done|]. rewrite Hex.
  clear -Hdel. induction Hdel as [|p k ps ks' [Hp _] _ IH]; simpl; constructor.
  - exists k. split; [done|]. unfold key_of, delete_key. simpl.
    by rewrite lookup_singleton_eq.
  - done.
Qed.

(** The scenario of the specification: snapshot [[{id:1},{id:2}]] and
    [deleted_rows = [1]] give a single delete, keyed [id = 2]. *)
Lemma deleted_positions_resolve_to_keys_witness :
  let df := [only_id 1; only_id 2] in
  let D := {| edited_rows := []; added_rows := []; deleted_rows := [1] |} in
  let c' := (update_data no_str no_float (session_of D) df D inventory_db).2 in
  (update_data no_str no_float (session_of D) df D inventory_db).1 = Ok tt ∧
  executed_on DELETE (since inventory_db c') = [delete_key 2].
Proof.
  intros df D c'.
  assert (Hinv : has_inventory_table inventory_db).
  { exists {| t_columns := inventory_columns; t_rows := [] |}. split; reflexivity. }
  assert (Hres : Forall2 (fun p k => resolves_to no_str no_float df p k ∧ in_int64 k)
                         (deleted_rows D) [2]).
  { constructor; [|constructor]. split.
    - split; [lia|]. exists (only_id 2), (VInt 2). repeat split; reflexivity.
    - unfold in_int64. lia. }
  pose proof (deleted_positions_resolve_to_keys no_str no_float
                (session_of D) df D inventory_db [] [2]
                Hinv eq_refl (List.Forall_nil _) Hres) as (H1 & H2 & _).
  split; assumption.
Defined.

(** Without those conditions an entry at a valid position need not be
    honoured.  The positions are resolved one at a time while the deletes
    are being executed: with snapshot [[{id:1},{id:2}]] and
    [deleted_rows = [7, 0]], position 0 holds the row [{id:1}], and yet no
    delete is executed, because position 7 is looked up first and raises
    [KeyError]. *)
Lemma earlier_position_blocks_valid_delete :
  let df := [only_id 1; only_id 2] in
  let D := {| edited_rows := []; added_rows := []; deleted_rows := [7; 0] |} in
  let out := update_data no_str no_float (session_of D) df D inventory_db in
  0 ∈ deleted_rows D ∧
  resolves_to no_str no_float df 0 1 ∧
  out.1 = Raise KeyError ∧
  executed_on DELETE (since inventory_db out.2) = [].
Proof.
  intros df D out. split.
  { apply elem_of_cons. right. apply elem_of_cons. by left. }
  split.
  { split; [lia|]. exists (only_id 1), (VInt 1). repeat split; reflexivity. }
  split; vm_compute; reflexivity.
Qed.

(** ** Edited rows *)




(** ** Commit, and what is left behind when the call fails *)

(** C3 (as amended). [update_data] is one transaction in this sense only:
    called on a connection with no transaction open, it executes its
    statements as it goes (so the statements are side effects of the call
    itself, after at most one [Begin]) and issues a single [Commit] at the
    end, which it reaches exactly when no exception was raised.  When an
    exception is raised, nothing is committed and nothing is rolled back: the
    statements executed before the exception stay in the still open
    transaction of the connection. *)
Theorem update_data_commits_or_leaves_pending
        (int_of_str : string → result Z) (int_of_float : Z → result Z)
        (sess : session_state) (df : DataFrame) (D : editing_state)
        (c : connection) :
  in_transaction c = false →
  let r := (update_data int_of_str int_of_float sess df D c).1 in
  let c' := (update_data int_of_str int_of_float sess df D c).2 in
  ∃ us ins dels,
    let stmts := map (Exec UPDATE) us
                 ++ map (Exec INSERT) ins
                 ++ map (Exec DELETE) dels in
    tables c' = tables c ∧
    match r with
    | Ok _ =>
        in_transaction c' = false ∧
        since c c' = (if any_block D then Begin :: stmts ++ [Commit] else [])
    | Raise _ =>
        since c c' = (if in_transaction c' then Begin :: stmts else []) ∧
        (in_transaction c' = false → stmts = [])
    end.
Proof.
  intros Hc. simpl.
  destruct (update_data_trace int_of_str int_of_float sess df D c)
    as (ran & us & ins & dels & Ht & Hl & Hi & Hn & _ & _ & _ & _ & Kok).
  simpl in *. rewrite Hc in *. simpl in *.
  exists us, ins, dels. split; [done|].
  assert (Hnil : ran = false →
                 map (Exec UPDATE) us ++ map (Exec INSERT) ins
                 ++ map (Exec DELETE) dels = []).
  { intros ->. destruct us; [|by discriminate Hn; left].
    destruct ins; [|by discriminate Hn; right; left].
    destruct dels; [done|]. by discriminate Hn; right; right. }
  destruct ((update_data int_of_str int_of_float sess df D c).1) as [[]|e] eqn:Hr;
    simpl in *.
  - destruct (Kok eq_refl) as (-> & _). split; [done|].
    rewrite (since_app _ _ _ Hl). destruct (any_block D); simpl; [done|].
    by rewrite Hnil.
  - rewrite Hi. rewrite (since_app _ _ _ Hl), app_nil_r.
    destruct ran; simpl; [done|]. by rewrite Hnil.
Qed.

(** The failing call of [failed_call_leaves_update_pending] below, started
    on a connection with no transaction open. *)
Lemma update_data_commits_or_leaves_pending_witness :
  let df := [item 1 "apple" 5 2] in
  let D := {| edited_rows := [(0, {[ "units_left" := VInt 1 ]})];
              added_rows := [];
              deleted_rows := [7] |} in
  let r := (update_data no_str no_float (session_of D) df D inventory_db).1 in
  let c' := (update_data no_str no_float (session_of D) df D inventory_db).2 in
  in_transaction inventory_db = false ∧
  ∃ us ins dels,
    let stmts := map (Exec UPDATE) us
                 ++ map (Exec INSERT) ins
                 ++ map (Exec DELETE) dels in
    tables c' = tables inventory_db ∧
    match r with
    | Ok _ =>
        in_transaction c' = false ∧
        since inventory_db c'
        = (if any_block D then Begin :: stmts ++ [Commit] else [])
    | Raise _ =>
        since inventory_db c' = (if in_transaction c' then Begin :: stmts else []) ∧
        (in_transaction c' = false → stmts = [])
    end.
Proof.
  intros df D r c'. split; [reflexivity|].
  exact (update_data_commits_or_leaves_pending no_str no_float
           (session_of D) df D inventory_db eq_refl).
Defined.

(** An edit that goes through followed by a deleted position that does not
    exist: the call raises [KeyError] with the update already executed; the
    connection is left inside the transaction, neither committed nor rolled
    back. *)
Lemma failed_call_leaves_update_pending :
  let df := [item 1 "apple" 5 2] in
  let D := {| edited_rows := [(0, {[ "units_left" := VInt 1 ]})];
              added_rows := [];
              deleted_rows := [7] |} in
  update_data no_str no_float (session_of D) df D inventory_db
  = (Raise KeyError,
     {| tables := tables inventory_db;
        in_transaction := true;
        log := [Begin; Exec UPDATE (dict (item 1 "apple" 1 2))] |}).
Proof. vm_compute. reflexivity. Qed.

(** What is left pending is committed by the next call on the same
    connection: after the failed call above, a call with a diff that only
    deletes the row commits the update of the failed call with it. *)
Lemma pending_update_is_committed_by_next_call :
  let df := [item 1 "apple" 5 2] in
  let D1 := {| edited_rows := [(0, {[ "units_left" := VInt 1 ]})];
               added_rows := [];
               deleted_rows := [7] |} in
  let D2 := {| edited_rows := []; added_rows := []; deleted_rows := [0] |} in
  let c1 := (update_data no_str no_float (session_of D1) df D1 inventory_db).2 in
  update_data no_str no_float (session_of D2) df D2 c1
  = (Ok tt,
     {| tables := tables inventory_db;
        in_transaction := false;
        log := [Begin; Exec UPDATE (dict (item 1 "apple" 1 2));
                Exec DELETE (delete_key 1); Commit] |}).
Proof. vm_compute. reflexivity. Qed.

(** ** Positions that the snapshot does not have *)

Lemma Commit_not_executed s qs : Commit ∉ map (Exec s) qs.
Proof.
  induction qs as [|q qs IH]; simpl; [apply not_elem_of_nil|].
  intros H. apply elem_of_cons in H as [H|H]; [discriminate H|done].
Qed.

(** A deleted position outside [0 .. n-1] makes the generator raise
    [KeyError] when it is reached. *)
Lemma delete_parameters_stale (int_of_str : string → result Z)
      (int_of_float : Z → result Z) (df : DataFrame) p :
  ¬ (0 <= p < Z.of_nat (length df)) →
  delete_parameters int_of_str int_of_float df p = Raise KeyError.
Proof. intros Hp. unfold delete_parameters. by rewrite loc_out_of_range. Qed.

Lemma outcome_until_raise s qs e rest :
  Forall (bindable s) qs →
  outcome s (map Ok qs ++ Raise e :: rest) = Raise e ∧
  executed s (map Ok qs ++ Raise e :: rest) = qs.
Proof.
  induction 1 as [|q qs Hq _ [IH1 IH2]]; simpl; [done|].
  unfold bindable in Hq. destruct (bind_parameters s q); [|done].
  simpl. by rewrite IH1, IH2.
Qed.

(** The deleted block is lazy: when the positions before a stale one resolve,
    their deletes are executed, then [KeyError] is raised, and the call ends
    inside the open transaction. *)
Lemma stale_deleted_position_raises_KeyError
      (int_of_str : string → result Z) (int_of_float : Z → result Z)
      (sess : session_state) (df : DataFrame) (D : editing_state)
      (c : connection) (rows : list row) (ds : list Z) (p : Z)
      (rest : list Z) (ks : list Z) :
  has_inventory_table c →
  edits_go_through sess df D rows →
  Forall (fun r => bindable INSERT (defaultdict_None r)) (added_rows D) →
  deleted_rows D = ds ++ p :: rest →
  Forall2 (fun p k => resolves_to int_of_str int_of_float df p k ∧ in_int64 k) ds ks →
  ¬ (0 <= p < Z.of_nat (length df)) →
  let c' := (update_data int_of_str int_of_float sess df D c).2 in
  (update_data int_of_str int_of_float sess df D c).1 = Raise KeyError ∧
  in_transaction c' = true ∧
  executed_on DELETE (since c c') = map delete_key ks.
Proof.
  intros Hinv Hed Had HD Hres Hp.
  assert (E1 : (edited_block sess df D c).1 = Ok tt).
  { unfold edits_go_through in Hed. destruct (truthy (edited_rows D)) eqn:Hg.
    - destruct Hed. by eapply edited_block_ok.
    - unfold edited_block. by rewrite Hg. }
  destruct (edited_block_spec sess df D c) as (r1 & us & J1 & _).
  set (c1 := (edited_block sess df D c).2) in *.
  destruct (added_block_spec D c1) as (r2 & ins & J2 & _).
  set (c2 := (added_block D c1).2) in *.
  pose proof (extends_trans _ _ _ _ _ _ _ J1 J2) as (Ht & Hi & Hl & _).
  assert (Hinv2 : has_inventory_table c2) by (by apply (has_inventory_tables c)).
  destruct (resolved_delete_parameters int_of_str int_of_float _ _ _ Hres)
    as [Hmap Hbind].
  destruct (outcome_until_raise DELETE (map delete_key ks) KeyError
              (map (delete_parameters int_of_str int_of_float df) rest) Hbind)
    as [Hout Hexe].
  simpl. unfold update_data. rewrite seq_eq, E1. fold c1.
  rewrite seq_eq, added_block_ok; [|by apply (has_inventory_tables c); [apply J1|] |done].
  fold c2. rewrite seq_eq. unfold deleted_block. rewrite HD.
  replace (truthy (ds ++ p :: rest)) with true by (by destruct ds).
  rewrite executemany_eq, has_inventory_prepared by done.
  rewrite map_app. cbn [map]. rewrite Hmap, delete_parameters_stale by done.
  rewrite Hout, Hexe. simpl. split; [done|]. split; [done|].
  rewrite (since_app c _ (((if negb (in_transaction c) && (r1 || r2)
                            then [Begin] else [])
                           ++ map (Exec UPDATE) us
                           ++ map (Exec INSERT) ins)
                          ++ begin_events c2
                          ++ map (Exec DELETE) (map delete_key ks))).
  - rewrite !executed_on_app.
    rewrite (executed_on_other _ UPDATE) by done.
    rewrite (executed_on_other _ INSERT) by done.
    rewrite executed_on_same. unfold begin_events.
    destruct (negb _ && _), (in_transaction c2); by simpl.
  - simpl. rewrite Hl. by rewrite <- !app_assoc.
Qed.

(** C4 (as amended). The code has no [ResolutionError]; a position that the
    snapshot does not have surfaces as the exception of the pandas lookup.
    If the session state holds the diff and some edited position lies outside
    [-n .. n-1], or if some deleted position lies outside [0 .. n-1] (with
    [n] the number of snapshot rows), then [update_data] raises and commits
    nothing; in the edited case the exception is [IndexError], raised before
    anything is executed, so that the connection is untouched. *)
Theorem stale_position_raises
        (int_of_str : string → result Z) (int_of_float : Z → result Z)
        (sess : session_state) (df : DataFrame) (D : editing_state)
        (c : connection) :
  let n := Z.of_nat (length df) in
  let stale_edit := ∃ p m, (p, m) ∈ edited_rows D ∧ ¬ (- n <= p < n) in
  let stale_delete := ∃ p, p ∈ deleted_rows D ∧ ¬ (0 <= p < n) in
  (inventory_table sess = D ∧ stale_edit) ∨ stale_delete →
  let r := (update_data int_of_str int_of_float sess df D c).1 in
  let c' := (update_data int_of_str int_of_float sess df D c).2 in
  ∃ e, r = Raise e ∧
       (Commit ∉ since c c') ∧
       (inventory_table sess = D → stale_edit → e = IndexError ∧ c' = c).
Proof.
  intros n stale_edit stale_delete H r c'.
  assert (Hedit : inventory_table sess = D → stale_edit →
                  update_data int_of_str int_of_float sess df D c
                  = (Raise IndexError, c)).
  { intros Hsess (p & m & Hin & Hp).
    unfold update_data. rewrite seq_eq. unfold edited_block.
    destruct (edited_rows D) as [|d ds] eqn:HD; [by apply not_elem_of_nil in Hin|].
    simpl. rewrite bind_eq. unfold lift.
    rewrite Hsess, HD, (build_rows_stale df (d :: ds) p m); done. }
  assert (Hsince : Commit ∉ since c c).
  { unfold since. rewrite drop_all. apply not_elem_of_nil. }
  destruct H as [[Hsess Hst]|(p & Hin & Hp)].
  { exists IndexError. subst r c'. rewrite (Hedit Hsess Hst). simpl.
    split; [done|]. split; done. }
  destruct (update_data_trace int_of_str int_of_float sess df D c)
    as (ran & us & ins & dels & _ & Hl & _ & _ & _ & _ & _ & _ & Kok).
  simpl in Hl, Kok. fold r c' in Hl, Kok.
  destruct r as [[]|e] eqn:Hr.
  { destruct (Kok eq_refl) as (_ & _ & Hdels). exfalso.
    assert (Hraise : Raise KeyError
                     ∈ map (delete_parameters int_of_str int_of_float df)
                           (deleted_rows D)).
    { apply list_elem_of_fmap. exists p. split; [|done].
      by rewrite delete_parameters_stale. }
    rewrite <- Hdels in Hraise. apply list_elem_of_fmap in Hraise.
    by destruct Hraise as (q & Hq & _). }
  exists e. split; [done|]. split.
  - rewrite (since_app _ _ _ Hl). simpl. rewrite app_nil_r.
    intros Hc. apply elem_of_app in Hc as [Hc|Hc].
    + destruct (negb _ && _); [|by apply not_elem_of_nil in Hc].
      apply list_elem_of_singleton in Hc. discriminate Hc.
    + apply elem_of_app in Hc as [Hc|Hc]; [by apply Commit_not_executed in Hc|].
      apply elem_of_app in Hc as [Hc|Hc]; by apply Commit_not_executed in Hc.
  - intros Hsess Hst. pose proof (Hedit Hsess Hst) as Heq.
    subst c'. rewrite Heq. simpl. split; [|done].
    assert (Hr' : (update_data int_of_str int_of_float sess df D c).1 = Raise e)
      by done.
    rewrite Heq in Hr'. by injection Hr' as <-.
Qed.

(** An edited position past the end of a one-row snapshot. *)
Lemma stale_position_raises_witness :
  let df := [item 1 "apple" 5 2] in
  let D := edits [(1, {[ "units_left" := VInt 1 ]})] in
  let out := update_data no_str no_float (session_of D) df D inventory_db in
  ∃ e, out.1 = Raise e ∧
       (Commit ∉ since inventory_db out.2) ∧
       (inventory_table (session_of D) = D →
        (∃ p m, (p, m) ∈ edited_rows D
                ∧ ¬ (- Z.of_nat (length df) <= p < Z.of_nat (length df))) →
        e = IndexError ∧ out.2 = inventory_db).
Proof.
  intros df D out.
  apply (stale_position_raises no_str no_float (session_of D) df D inventory_db).
  left. split; [reflexivity|].
  exists 1, {[ "units_left" := VInt 1 ]}. split.
  - apply list_elem_of_singleton. reflexivity.
  - simpl. lia.
Defined.

(** Position [-1] is not a position of the one-row snapshot, and the call
    neither fails nor skips it: [iloc] counts from the end, the last row is
    updated and the update is committed. *)
Lemma negative_position_is_resolved :
  let df := [item 1 "apple" 5 2] in
  let D := edits [(-1, {[ "units_left" := VInt 1 ]})] in
  ¬ (0 <= -1 < Z.of_nat (length df)) ∧
  update_data no_str no_float (session_of D) df D inventory_db
  = (Ok tt,
     {| tables := tables inventory_db;
        in_transaction := false;
        log := [Begin; Exec UPDATE (dict (item 1 "apple" 1 2)); Commit] |}).
Proof. split; [lia|]. vm_compute. reflexivity. Qed.

(** ** Added rows *)

Lemma bind_names_ext names p q :
  (∀ name, name ∈ names → get_parameter p name = get_parameter q name) →
  bind_names names p = bind_names names q.
Proof.
  induction names as [|name rest IH]; intros H; simpl; [done|].
  rewrite (H name) by (apply elem_of_cons; by left).
  rewrite IH; [done|]. intros name' Hin. apply H, elem_of_cons. by right.
Qed.

(** C5 (as amended). [update_data] has no notion of the table's declared
    columns and no [SchemaError]: an added row is handed to the [INSERT]
    whatever its keys are.  When the call goes through (the table exists, the
    edited rows resolve and bind, the values fit, the deleted positions
    resolve), every added row is inserted, in order, and committed; a key
    outside the eight columns that the statement names is never read, so two
    rows that agree on those eight columns bind the same values, and a
    column that a row does not have is bound to [None]. *)
Theorem added_rows_are_inserted_unchecked
        (int_of_str : string → result Z) (int_of_float : Z → result Z)
        (sess : session_state) (df : DataFrame) (D : editing_state)
        (c : connection) (rows : list row) (ks : list Z) :
  has_inventory_table c →
  edits_go_through sess df D rows →
  Forall (fun r => bindable INSERT (defaultdict_None r)) (added_rows D) →
  Forall2 (fun p k => resolves_to int_of_str int_of_float df p k ∧ in_int64 k)
          (deleted_rows D) ks →
  let c' := (update_data int_of_str int_of_float sess df D c).2 in
  (update_data int_of_str int_of_float sess df D c).1 = Ok tt ∧
  in_transaction c' = false ∧
  executed_on INSERT (since c c')
    = map defaultdict_None (added_rows D) ∧
  (∀ r1 r2 : row,
     (∀ col, col ∈ inventory_columns → r1 !! col = r2 !! col) →
     bind_parameters INSERT (defaultdict_None r1)
     = bind_parameters INSERT (defaultdict_None r2)) ∧
  (∀ (r : row) col,
     r !! col = None → get_parameter (defaultdict_None r) col = Ok VNone).
Proof.
  intros Hinv Hed Had Hdel.
  destruct (update_data_success int_of_str int_of_float sess df D c rows ks
              Hinv Hed Had Hdel) as (Hr & _ & Hi & Hs).
  simpl. split; [done|]. split; [done|]. split.
  - rewrite Hs, !executed_on_app.
    rewrite (executed_on_other _ UPDATE) by done.
    rewrite (executed_on_other _ DELETE) by done.
    rewrite executed_on_same.
    destruct (negb _ && _), (_ || _); simpl; by rewrite ?app_nil_r.
  - split.
    + intros r1 r2 Hagree. unfold bind_parameters. apply bind_names_ext.
      intros name Hin. unfold get_parameter.
      by rewrite (Hagree name (columns_of_inventory INSERT name Hin)).
    + intros r col Hcol. unfold get_parameter. by rewrite Hcol.
Qed.

(** An added row with the undeclared column [colour]. *)
Lemma added_rows_are_inserted_unchecked_witness :
  let D := {| edited_rows := []; added_rows := [widget_row]; deleted_rows := [] |} in
  let c' := (update_data no_str no_float (session_of D) [] D inventory_db).2 in
  (update_data no_str no_float (session_of D) [] D inventory_db).1 = Ok tt ∧
  in_transaction c' = false ∧
  executed_on INSERT (since inventory_db c')
    = [defaultdict_None widget_row].
Proof.
  intros D c'.
  assert (Hinv : has_inventory_table inventory_db).
  { exists {| t_columns := inventory_columns; t_rows := [] |}. split; reflexivity. }
  assert (Had : Forall (fun r => bindable INSERT (defaultdict_None r))
                       (added_rows D)).
  { constructor; [|constructor]. vm_compute. reflexivity. }
  pose proof (added_rows_are_inserted_unchecked no_str no_float (session_of D)
                [] D inventory_db [] [] Hinv eq_refl Had (List.Forall2_nil _))
    as (H1 & H2 & H3 & _).
  repeat split; assumption.
Defined.

(** The row carries a column that the table does not declare, and the call
    does not fail: the insert is executed and committed. *)
Lemma undeclared_column_is_accepted :
  let D := {| edited_rows := []; added_rows := [widget_row]; deleted_rows := [] |} in
  widget_row !! "colour" = Some (VStr "red") ∧
  ("colour" ∉ inventory_columns) ∧
  update_data no_str no_float (session_of D) [] D inventory_db
  = (Ok tt,
     {| tables := tables inventory_db;
        in_transaction := false;
        log := [Begin; Exec INSERT (defaultdict_None widget_row); Commit] |}).
Proof.
  intros D. split; [reflexivity|]. split.
  - unfold inventory_columns, columns_of. simpl.
    rewrite !elem_of_cons, elem_of_nil. intros H.
    repeat (destruct H as [H|H]; [discriminate H|]). done.
  - vm_compute. reflexivity.
Qed.

(** ** [load_data] *)

Lemma try_fetch_eq name k c t :
  tables c !! name = Some t → try_fetch name k c = k (t_rows t) c.
Proof. intros H. unfold try_fetch, fetch_all. by rewrite H. Qed.

(** C10. On every connection on which the three [SELECT]s succeed,
    [load_data] does not return: it raises.  When the three frames can be
    built the exception is the [NameError] for [df_transactions], the first
    unbound name of the [return] statement ([df_entities] has been bound
    three times and holds the users frame); otherwise it is the [ValueError]
    of a frame whose data does not have the width of its column list.  So the
    triple that the [return] statement names is never produced. *)
Theorem load_data_raises_name_error (c : connection) (t1 t2 t3 : table) :
  tables c !! "entities" = Some t1 →
  tables c !! "transactions" = Some t2 →
  tables c !! "users" = Some t3 →
  let frames_built :=
    is_ok (pd_DataFrame (t_rows t1) entities_columns)
    && is_ok (pd_DataFrame (t_rows t2) transactions_columns)
    && is_ok (pd_DataFrame (t_rows t3) users_columns) in
  load_data c
  = (Raise (if frames_built then NameError "df_transactions" else ValueError), c)
  ∧ (∀ a b d c', load_data c ≠ (Ok (PyTuple3 a b d), c')).
Proof.
  intros H1 H2 H3 frames_built.
  assert (Heq : load_data c
                = (Raise (if frames_built then NameError "df_transactions"
                          else ValueError), c)).
  { subst frames_built. unfold load_data.
    rewrite (try_fetch_eq _ _ _ _ H1), bind_eq. unfold lift at 1.
    unfold pd_DataFrame at 1 4.
    destruct (forallb _ (t_rows t1)); simpl; [|done].
    rewrite (try_fetch_eq _ _ _ _ H2), bind_eq. unfold lift at 1.
    unfold pd_DataFrame at 1 3.
    destruct (forallb _ (t_rows t2)); simpl; [|done].
    rewrite (try_fetch_eq _ _ _ _ H3), bind_eq. unfold lift at 1.
    unfold pd_DataFrame at 1 2.
    destruct (forallb _ (t_rows t3)); simpl; [|done].
    reflexivity. }
  split; [done|]. intros a b d c'. by rewrite Heq.
Qed.

(** A database that holds the three tables, all empty: three successful
    queries, and the [NameError]. *)
Lemma load_data_raises_name_error_witness :
  load_data three_table_db
  = (Raise (NameError "df_transactions"), three_table_db).
Proof.
  exact (proj1 (load_data_raises_name_error three_table_db
                  {| t_columns := entities_columns; t_rows := [] |}
                  {| t_columns := transactions_columns; t_rows := [] |}
                  {| t_columns := users_columns; t_rows := [] |}
                  eq_refl eq_refl eq_refl)).
Defined.

(** ** The table that [update_data] writes to *)

Lemma create_table_eq name cols c :
  create_table_if_not_exists name cols c
  = if create_table_parses cols then
      (Ok tt,
       {| tables := ensure_table name (map cd_name cols) (tables c);
          in_transaction := in_transaction c;
          log := log c |})
    else (Raise OperationalError, c).
Proof.
  unfold create_table_if_not_exists, ensure_table.
  destruct (create_table_parses cols); [|done].
  destruct (tables c !! name); [by destruct c|done].
Qed.

(** The second [CREATE TABLE] text does not parse, so the call stops there:
    [entities] has been seen to, nothing else has happened. *)
Lemma initialize_data_eq c :
  initialize_data c
  = (Raise OperationalError,
     {| tables := ensure_table "entities" entities_columns (tables c);
        in_transaction := in_transaction c;
        log := log c |}).
Proof.
  unfold initialize_data.
  rewrite seq_eq, create_table_eq.
  change (create_table_parses entities_schema) with true.
  change (map cd_name entities_schema) with entities_columns. simpl.
  rewrite seq_eq, create_table_eq.
  change (create_table_parses transactions_schema) with false.
  reflexivity.
Qed.

Lemma ensure_table_keeps name cols ts other t :
  ts !! other = Some t → ensure_table name cols ts !! other = Some t.
Proof.
  intros H. unfold ensure_table. destruct (ts !! name) eqn:Hn; [done|].
  rewrite lookup_insert_ne; [done|]. intros ->. congruence.
Qed.

Lemma ensure_table_is_Some name cols ts :
  is_Some (ensure_table name cols ts !! name).
Proof.
  unfold ensure_table. destruct (ts !! name) eqn:Hn; [by rewrite Hn|].
  rewrite lookup_insert_eq. eauto.
Qed.

Lemma ensure_table_other name cols ts other :
  other ≠ name → ensure_table name cols ts !! other = ts !! other.
Proof.
  intros H. unfold ensure_table. destruct (ts !! name); [done|].
  by rewrite lookup_insert_ne.
Qed.

Lemma ensure_table_present name cols ts :
  is_Some (ts !! name) → ensure_table name cols ts = ts.
Proof. intros [t Ht]. unfold ensure_table. by rewrite Ht. Qed.

Lemma initialized_tables :
  tables initialized_db
  = {[ "entities" := {| t_columns := entities_columns; t_rows := [] |} ]}.
Proof. vm_compute. reflexivity. Qed.

Lemma unprepared_update_data (int_of_str : string → result Z)
      (int_of_float : Z → result Z) sess df D c :
  (∀ s, prepared s c = false) →
  in_transaction c = false →
  if any_block D then
    ∃ e, update_data int_of_str int_of_float sess df D c = (Raise e, c)
  else update_data int_of_str int_of_float sess df D c = (Ok tt, c).
Proof.
  intros Hprep Hc. unfold any_block, update_data.
  rewrite seq_eq. unfold edited_block.
  destruct (truthy (edited_rows D)); simpl.
  { rewrite bind_eq. unfold lift.
    destruct (build_rows df _) as [rows|e]; [|by exists e].
    rewrite executemany_eq, Hprep. by exists OperationalError. }
  rewrite seq_eq. unfold added_block.
  destruct (truthy (added_rows D)); simpl.
  { rewrite executemany_eq, Hprep. by exists OperationalError. }
  rewrite seq_eq. unfold deleted_block.
  destruct (truthy (deleted_rows D)); simpl.
  { rewrite executemany_eq, Hprep. by exists OperationalError. }
  by rewrite commit_eq, Hc.
Qed.

Lemma disjoint_columns_spec l1 l2 col :
  disjoint_columns l1 l2 = true → col ∈ l1 → col ∉ l2.
Proof.
  unfold disjoint_columns. intros H Hin.
  rewrite forallb_forall in H. apply list_elem_of_In, H in Hin.
  apply negb_true_iff in Hin. by apply bool_decide_eq_false in Hin.
Qed.

(** C9. Every statement of [update_data] is written against the table
    [inventory].  The [CREATE TABLE] texts of [initialize_data] name the
    tables [entities], [transactions] and [users], none of which is
    [inventory] and none of whose columns is a column that those statements
    name; and of these only [entities] is created, because the second text
    does not parse and the call stops there with [OperationalError].  On no
    connection does [initialize_data] create an [inventory] table.  So the
    written table is not part of the initialized schema: on the database
    that [initialize_data] leaves, which holds [entities] alone, no statement
    of [update_data] compiles, and every call with a non-empty diff raises
    without executing or committing anything. *)
Theorem update_data_targets_missing_table
        (int_of_str : string → result Z) (int_of_float : Z → result Z)
        (sess : session_state) (df : DataFrame) (D : editing_state) :
  (∀ s, table_of s = "inventory") ∧
  (∀ name cols, (name, cols) ∈ declared_tables →
     name ≠ "inventory" ∧
     ∀ col, col ∈ map cd_name cols → col ∉ inventory_columns) ∧
  (∀ c, (initialize_data c).1 = Raise OperationalError ∧
        tables (initialize_data c).2 !! "inventory" = tables c !! "inventory") ∧
  dom (tables initialized_db) = {[ "entities" ]} ∧
  (∀ s, table_of s ∉ dom (tables initialized_db)) ∧
  (∀ s, prepared s initialized_db = false) ∧
  (if any_block D then
     ∃ e, update_data int_of_str int_of_float sess df D initialized_db
          = (Raise e, initialized_db)
   else update_data int_of_str int_of_float sess df D initialized_db
        = (Ok tt, initialized_db)).
Proof.
  assert (Hprep : ∀ s, prepared s initialized_db = false).
  { intros s. unfold prepared. by rewrite table_of_inventory, initialized_tables. }
  split; [apply table_of_inventory|]. split.
  { intros name cols. unfold declared_tables. rewrite !elem_of_cons.
    intros [[= -> ->]|[[= -> ->]|[[= -> ->]|H]]];
      [| | |by apply elem_of_nil in H];
      (split; [done|]; intros col; by apply disjoint_columns_spec). }
  split.
  { intros c. rewrite initialize_data_eq. simpl. split; [done|].
    by apply ensure_table_other. }
  split.
  { rewrite initialized_tables. by rewrite dom_singleton_L. }
  split.
  { intros s. apply not_elem_of_dom.
    by rewrite table_of_inventory, initialized_tables. }
  split; [done|].
  by apply unprepared_update_data.
Qed.

(** ** The edited rows are read from the session state *)

(** C8. Two calls with the same snapshot and the same diff, made under
    session states that hold different edited rows, execute different
    updates: the deltas come from [st.session_state.inventory_table], the
    argument [changes] is only tested for emptiness.  Here the diff says
    [units_left = 1]; the first call runs under a session state that says
    the same, the second under one that says [units_left = 9]. *)
Theorem update_data_reads_session_state
        (int_of_str : string → result Z) (int_of_float : Z → result Z) :
  let df := [item 1 "apple" 5 2] in
  let D := edits [(0, {[ "units_left" := VInt 1 ]})] in
  let sess1 := session_of D in
  let sess2 := session_of (edits [(0, {[ "units_left" := VInt 9 ]})]) in
  let out1 := update_data int_of_str int_of_float sess1 df D inventory_db in
  let out2 := update_data int_of_str int_of_float sess2 df D inventory_db in
  executed_on UPDATE (since inventory_db out1.2)
    = [dict (item 1 "apple" 1 2)] ∧
  executed_on UPDATE (since inventory_db out2.2)
    = [dict (item 1 "apple" 9 2)] ∧
  out1 ≠ out2.
Proof.
  intros df D sess1 sess2 out1 out2.
  assert (H1 : executed_on UPDATE (since inventory_db out1.2)
               = [dict (item 1 "apple" 1 2)]) by (vm_compute; reflexivity).
  assert (H2 : executed_on UPDATE (since inventory_db out2.2)
               = [dict (item 1 "apple" 9 2)]) by (vm_compute; reflexivity).
  split; [done|]. split; [done|].
  intros Heq. rewrite Heq, H2 in H1.
  apply (f_equal (fun l => match l with
                           | [p] => get_parameter p "units_left"
                           | _ => Raise KeyError
                           end)) in H1.
  vm_compute in H1. discriminate H1.
Qed.

(** C6. For every input the statements are executed category by category,
    updates, then inserts, then deletes, and the inserts and the deletes
    follow the iteration order of the diff's [added_rows] and
    [deleted_rows].  The updates follow the iteration order of the session
    state's [edited_rows], not of the diff's: in the instance below the diff
    lists position 0 before position 1, the session state lists them the
    other way round, and the update of the row at position 1 is executed
    first. *)
Theorem updates_follow_session_order
        (int_of_str : string → result Z) (int_of_float : Z → result Z) :
  (∀ sess df D c,
     let out := update_data int_of_str int_of_float sess df D c in
     ∃ (b : bool) us ins dels,
       since c out.2
       = (if b then [Begin] else [])
         ++ (map (Exec UPDATE) us ++ map (Exec INSERT) ins ++ map (Exec DELETE) dels)
         ++ (if is_ok out.1 && (in_transaction c || b) then [Commit] else []) ∧
       (us = [] ∨
        ∃ rows, build_rows df (edited_rows (inventory_table sess)) = Ok rows ∧
                us `prefix_of` map dict rows) ∧
       ins `prefix_of` map defaultdict_None (added_rows D) ∧
       map Ok dels
         `prefix_of` map (delete_parameters int_of_str int_of_float df)
                         (deleted_rows D)) ∧
  (let df := [item 1 "apple" 5 2; item 2 "pear" 3 1] in
   let m0 : row := {[ "units_left" := VInt 4 ]} in
   let m1 : row := {[ "units_left" := VInt 2 ]} in
   let D := edits [(0, m0); (1, m1)] in
   let sess := session_of (edits [(1, m1); (0, m0)]) in
   let out := update_data int_of_str int_of_float sess df D inventory_db in
   out.1 = Ok tt ∧
   executed_on UPDATE (since inventory_db out.2)
   = [dict (item 2 "pear" 2 1); dict (item 1 "apple" 4 2)]).
Proof.
  split.
  - intros sess df D c out.
    destruct (update_data_trace int_of_str int_of_float sess df D c)
      as (ran & us & ins & dels & _ & Hl & _ & _ & Hus & Hins & Hdels & _).
    simpl in Hl. fold out in Hl.
    exists (negb (in_transaction c) && ran), us, ins, dels.
    split; [|split; [|by split]].
    + rewrite (since_app _ _ _ Hl).
      by destruct (in_transaction c), ran.
    + destruct Hus as [->|(rows & _ & Hrows & Hp)]; [by left|].
      right. by exists rows.
  - split; vm_compute; reflexivity.
Qed.

(** * Further properties *)

(** ** [initialize_data] *)

(** X1. [initialize_data] never completes.  On every connection, also one
    that already holds a [transactions] table, the second [CREATE TABLE] text
    raises [OperationalError].  Up to there the call has made sure that
    [entities] exists and has done nothing else: every existing table keeps
    its columns and rows, no table other than [entities] appears (so
    [transactions] and [users] are never created), [conn.commit()] is not
    reached (a transaction that was open stays open, nothing is logged); and
    calling it again raises again and changes nothing more. *)
Theorem initialize_data_stops_at_second_table (c : connection) :
  let c' := (initialize_data c).2 in
  (initialize_data c).1 = Raise OperationalError ∧
  in_transaction c' = in_transaction c ∧
  log c' = log c ∧
  (∀ name t, tables c !! name = Some t → tables c' !! name = Some t) ∧
  is_Some (tables c' !! "entities") ∧
  (∀ name, name ≠ "entities" → tables c' !! name = tables c !! name) ∧
  initialize_data c' = (Raise OperationalError, c').
Proof.
  rewrite initialize_data_eq. simpl.
  split; [done|]. split; [done|]. split; [done|]. split.
  { intros name t H. by apply ensure_table_keeps. }
  split; [apply ensure_table_is_Some|]. split.
  { intros name H. by apply ensure_table_other. }
  rewrite initialize_data_eq. simpl.
  by rewrite (ensure_table_present "entities") by apply ensure_table_is_Some.
Qed.

(** ** [load_data] on any connection *)

Lemma try_fetch_missing name k c :
  tables c !! name = None → try_fetch name k c = (Ok PyNone, c).
Proof. intros H. unfold try_fetch, fetch_all. by rewrite H. Qed.

(** How [load_data] ends, read off the three tables in the order in which
    they are queried. *)
Lemma load_data_eq c :
  load_data c
  = (match tables c !! "entities" with
     | None => Ok PyNone
     | Some t1 =>
         if negb (frame_ok t1 entities_columns) then Raise ValueError else
         match tables c !! "transactions" with
         | None => Ok PyNone
         | Some t2 =>
             if negb (frame_ok t2 transactions_columns) then Raise ValueError else
             match tables c !! "users" with
             | None => Ok PyNone
             | Some t3 =>
                 if negb (frame_ok t3 users_columns) then Raise ValueError
                 else Raise (NameError "df_transactions")
             end
         end
     end, c).
Proof.
  unfold load_data, frame_ok.
  destruct (tables c !! "entities") as [t1|] eqn:H1;
    [|by rewrite try_fetch_missing].
  rewrite (try_fetch_eq _ _ _ _ H1), bind_eq. unfold lift at 1.
  unfold pd_DataFrame at 1 4.
  destruct (forallb _ (t_rows t1)); simpl; [|done].
  destruct (tables c !! "transactions") as [t2|] eqn:H2;
    [|by rewrite try_fetch_missing].
  rewrite (try_fetch_eq _ _ _ _ H2), bind_eq. unfold lift at 1.
  unfold pd_DataFrame at 1 3.
  destruct (forallb _ (t_rows t2)); simpl; [|done].
  destruct (tables c !! "users") as [t3|] eqn:H3;
    [|by rewrite try_fetch_missing].
  rewrite (try_fetch_eq _ _ _ _ H3), bind_eq. unfold lift at 1.
  unfold pd_DataFrame at 1 2.
  destruct (forallb _ (t_rows t3)); simpl; [|done].
  reflexivity.
Qed.

Lemma load_data_only_reads_connection c :
  (load_data c).2 = c ∧
  ((load_data c).1 = Ok PyNone ∨
   (load_data c).1 = Raise ValueError ∨
   (load_data c).1 = Raise (NameError "df_transactions")).
Proof.
  rewrite load_data_eq. simpl. split; [done|].
  destruct (tables c !! "entities") as [t1|]; [|by left].
  destruct (frame_ok t1 _); simpl; [|by right; left].
  destruct (tables c !! "transactions") as [t2|]; [|by left].
  destruct (frame_ok t2 _); simpl; [|by right; left].
  destruct (tables c !! "users") as [t3|]; [|by left].
  destruct (frame_ok t3 _); simpl; [by right; right|by right; left].
Qed.

(** X2. On every connection [load_data] only reads: the connection is handed
    back as it was (no table changed, no transaction opened, nothing logged),
    and the call ends in one of three ways, returning [None], raising
    [ValueError] or raising the [NameError] for [df_transactions].  It never
    returns a frame or a tuple. *)
Theorem load_data_only_reads (c : connection) :
  (load_data c).2 = c ∧
  ((load_data c).1 = Ok PyNone ∨
   (load_data c).1 = Raise ValueError ∨
   (load_data c).1 = Raise (NameError "df_transactions")).
Proof. apply load_data_only_reads_connection. Qed.

(** X3. [load_data] returns [None] exactly when one of its three queries
    fails and the frames of the tables queried before it could be built: a
    missing [entities] table always gives [None]; a missing [transactions]
    table gives [None] only if the [entities] frame was built, and a missing
    [users] table only if both earlier frames were.  (A frame that cannot be
    built raises [ValueError] first, since the frames are built outside the
    [try] blocks.) *)
Theorem load_data_returns_None_iff (c : connection) :
  (load_data c).1 = Ok PyNone ↔
  tables c !! "entities" = None ∨
  (∃ t1, tables c !! "entities" = Some t1 ∧
         frame_ok t1 entities_columns = true ∧
         (tables c !! "transactions" = None ∨
          ∃ t2, tables c !! "transactions" = Some t2 ∧
                frame_ok t2 transactions_columns = true ∧
                tables c !! "users" = None)).
Proof.
  rewrite load_data_eq. simpl.
  destruct (tables c !! "entities") as [t1|]; [|by split; [left|]].
  destruct (frame_ok t1 entities_columns) eqn:F1; simpl.
  2:{ split; [done|]. intros [H|(t & [= <-] & H & _)]; congruence. }
  destruct (tables c !! "transactions") as [t2|].
  2:{ split; [|done]. intros _. right. exists t1. by repeat split; [|left]. }
  destruct (frame_ok t2 transactions_columns) eqn:F2; simpl.
  2:{ split; [done|].
      intros [H|(t & _ & _ & [H|(t' & [= <-] & H & _)])]; congruence. }
  destruct (tables c !! "users") as [t3|].
  2:{ split; [|done]. intros _. right. exists t1. repeat split; try done.
      right. by exists t2. }
  split.
  - by destruct (frame_ok t3 users_columns).
  - intros [H|(t & _ & _ & [H|(t' & _ & _ & H)])]; congruence.
Qed.

(** ** The top of the page *)

Lemma page_start_existing ts :
  page_start (Some ts)
  = load_data {| tables := ts; in_transaction := false; log := [] |}.
Proof. reflexivity. Qed.

Lemma page_start_new :
  page_start None = (Raise OperationalError, initialized_db).
Proof.
  unfold page_start, connect_db. simpl. rewrite bind_eq.
  change {| tables := ∅; in_transaction := false; log := [] |} with new_database.
  unfold initialized_db. by rewrite initialize_data_eq.
Qed.

(** X4. The tables are created only when the file is missing.  When the file
    exists, the run up to [df = load_data(conn)] changes nothing in it,
    whatever it holds: a file that lacks one of the three tables is not
    repaired, and if it lacks [entities] the page goes on with [df = None]. *)
Theorem existing_file_is_never_initialized (ts : gmap string table) :
  let out := page_start (Some ts) in
  file_after out.2 = Some ts ∧
  in_transaction out.2 = false ∧
  log out.2 = [] ∧
  (ts !! "entities" = None → out.1 = Ok PyNone) ∧
  (∀ name, ts !! name = None → tables out.2 !! name = None).
Proof.
  simpl. rewrite page_start_existing.
  destruct (load_data_only_reads_connection
              {| tables := ts; in_transaction := false; log := [] |}) as [-> Hr].
  simpl. repeat split; try done.
  intros H. rewrite load_data_eq. simpl. by rewrite H.
Qed.

(** X5. The run up to [df = load_data(conn)] never binds [df] to a frame,
    on the first start or on a later one.  For every state of the file it
    binds [None] or stops with [ValueError], [NameError] or
    [OperationalError].  On a missing file it stops inside
    [initialize_data] with [OperationalError] and leaves a file that holds
    [entities] alone; the next run finds that file, skips
    [initialize_data], and binds [df = None] because [transactions] is
    missing.  Once the file exists a run leaves it as it was, so every
    further run ends as that one did. *)
Theorem page_start_never_binds_a_frame (file : database_file) :
  let out := page_start file in
  (out.1 = Ok PyNone ∨
   out.1 = Raise ValueError ∨
   out.1 = Raise (NameError "df_transactions") ∨
   out.1 = Raise OperationalError) ∧
  page_start None = (Raise OperationalError, initialized_db) ∧
  dom (tables initialized_db) = {[ "entities" ]} ∧
  page_start (file_after initialized_db) = (Ok PyNone, initialized_db) ∧
  (∀ ts, page_start (file_after (page_start (Some ts)).2)
         = page_start (Some ts)).
Proof.
  simpl. split.
  { destruct file as [ts|].
    - rewrite page_start_existing.
      destruct (load_data_only_reads_connection
                  {| tables := ts; in_transaction := false; log := [] |})
        as [_ [H|[H|H]]]; tauto.
    - rewrite page_start_new. simpl. tauto. }
  split; [apply page_start_new|]. split.
  { rewrite initialized_tables. by rewrite dom_singleton_L. }
  split.
  { unfold file_after. rewrite page_start_existing.
    assert (Hi : {| tables := tables initialized_db;
                    in_transaction := false; log := [] |} = initialized_db)
      by (vm_compute; reflexivity).
    rewrite Hi, load_data_eq, initialized_tables. reflexivity. }
  intros ts. rewrite page_start_existing.
  destruct (load_data_only_reads_connection
              {| tables := ts; in_transaction := false; log := [] |}) as [Hc _].
  unfold file_after. rewrite Hc. simpl. by rewrite page_start_existing.
Qed.

(** ** The commit button *)

Lemma has_uncommitted_any_block sess :
  has_uncommitted_changes sess = any_block (inventory_table sess).
Proof.
  unfold has_uncommitted_changes, any_block.
  destruct (inventory_table sess) as [[|e es] [|a adds] [|d ds]]; reflexivity.
Qed.

Lemma update_data_log (int_of_str : string → result Z)
      (int_of_float : Z → result Z) sess df D c :
  log (update_data int_of_str int_of_float sess df D c).2
  = log c ++ since c (update_data int_of_str int_of_float sess df D c).2.
Proof.
  destruct (update_data_trace int_of_str int_of_float sess df D c)
    as (ran & us & ins & dels & _ & Hl & _).
  simpl in Hl. by rewrite (since_app _ _ _ Hl).
Qed.

(** X6. The button is enabled exactly when a click does something.  With the
    arguments that the button passes (the session's own
    [inventory_table]) and a connection with no transaction open,
    [update_data] returns leaving the connection as it was if and only if
    [has_uncommitted_changes] is false; when it is true the call either
    raises or opens a transaction. *)
Theorem button_enabled_iff_click_acts
        (int_of_str : string → result Z) (int_of_float : Z → result Z)
        (sess : session_state) (df : DataFrame) (c : connection) :
  in_transaction c = false →
  (update_data int_of_str int_of_float sess df (inventory_table sess) c
   = (Ok tt, c)
   ↔ has_uncommitted_changes sess = false) ∧
  (has_uncommitted_changes sess = true →
   is_ok (update_data int_of_str int_of_float sess df (inventory_table sess) c).1
   = true →
   Begin ∈ since c
           (update_data int_of_str int_of_float sess df (inventory_table sess) c).2).
Proof.
  intros Hc. rewrite has_uncommitted_any_block.
  set (D := inventory_table sess).
  destruct (update_data_trace int_of_str int_of_float sess df D c)
    as (ran & us & ins & dels & _ & Hl & _ & _ & _ & _ & _ & _ & Kok).
  simpl in Hl, Kok. rewrite Hc in Hl. simpl in Hl.
  assert (Hbegin : (update_data int_of_str int_of_float sess df D c).1 = Ok tt →
                   any_block D = true →
                   Begin ∈ since c (update_data int_of_str int_of_float sess df D c).2).
  { intros Hr Hany. destruct (Kok Hr) as (-> & _).
    rewrite (since_app _ _ _ Hl), Hany. apply elem_of_cons. by left. }
  split; [split|].
  - intros Heq. destruct (any_block D) eqn:Hany; [|done]. exfalso.
    assert (Hr : (update_data int_of_str int_of_float sess df D c).1 = Ok tt)
      by (by rewrite Heq).
    specialize (Hbegin Hr eq_refl). rewrite Heq in Hbegin.
    unfold since in Hbegin. rewrite drop_all in Hbegin.
    by apply not_elem_of_nil in Hbegin.
  - intros Hany. unfold any_block in Hany.
    apply orb_false_iff in Hany as [Hany Hd].
    apply orb_false_iff in Hany as [He Ha].
    unfold update_data, edited_block, added_block, deleted_block.
    rewrite He, Ha, Hd. rewrite !bind_eq. simpl. by rewrite commit_eq, Hc.
  - intros Hany Hok.
    destruct ((update_data int_of_str int_of_float sess df D c).1) as [[]|e] eqn:Hr;
      [|done].
    by apply Hbegin.
Qed.

(** A session with one added row, on a closed connection. *)
Lemma button_enabled_iff_click_acts_witness :
  let sess := session_of {| edited_rows := []; added_rows := [widget_row];
                            deleted_rows := [] |} in
  has_uncommitted_changes sess = true ∧
  Begin ∈ since inventory_db
          (update_data no_str no_float sess [] (inventory_table sess) inventory_db).2.
Proof.
  intros sess. split; [reflexivity|].
  apply (proj2 (button_enabled_iff_click_acts no_str no_float sess []
                  inventory_db eq_refl)); reflexivity.
Defined.

(** How the log grows in a call that returns: the statements are read off
    the arguments alone. *)
Lemma update_data_returns_since (int_of_str : string → result Z)
      (int_of_float : Z → result Z) sess df D c :
  (update_data int_of_str int_of_float sess df D c).1 = Ok tt →
  ∃ us dels,
    (if truthy (edited_rows D) then
       ∃ rows, build_rows df (edited_rows (inventory_table sess)) = Ok rows ∧
               us = map dict rows
     else us = []) ∧
    map Ok dels
    = map (delete_parameters int_of_str int_of_float df) (deleted_rows D) ∧
    in_transaction (update_data int_of_str int_of_float sess df D c).2 = false ∧
    since c (update_data int_of_str int_of_float sess df D c).2 =
      (if negb (in_transaction c) && any_block D then [Begin] else [])
      ++ (map (Exec UPDATE) us
          ++ map (Exec INSERT) (map defaultdict_None (added_rows D))
          ++ map (Exec DELETE) dels)
      ++ (if in_transaction c || any_block D then [Commit] else []).
Proof.
  intros Hr.
  assert (E1 : (edited_block sess df D c).1 = Ok tt).
  { revert Hr. unfold update_data. rewrite seq_eq.
    by destruct ((edited_block sess df D c).1) as [[]|e]. }
  destruct (update_data_trace int_of_str int_of_float sess df D c)
    as (ran & us & ins & dels & _ & Hl & Hi & _ & _ & _ & _ & Ked & Kok).
  simpl in *. rewrite Hr in *. simpl in *.
  destruct (Kok eq_refl) as (-> & -> & Hdels).
  exists us, dels. split; [by apply Ked|]. split; [done|]. split; [done|].
  by apply since_app.
Qed.

(** X7. Nothing in [update_data] marks a change as done, so calling it again
    with the same arguments runs the same statements again.  Whenever a call
    on a connection with no transaction open returns and the same call on
    the connection it leaves returns too, the second call has executed what
    the first one did, statement for statement, in a transaction of its own:
    every update, insert and delete has then been executed twice. *)
Theorem repeated_call_repeats_statements
        (int_of_str : string → result Z) (int_of_float : Z → result Z)
        (sess : session_state) (df : DataFrame) (D : editing_state)
        (c : connection) :
  in_transaction c = false →
  let c1 := (update_data int_of_str int_of_float sess df D c).2 in
  let c2 := (update_data int_of_str int_of_float sess df D c1).2 in
  (update_data int_of_str int_of_float sess df D c).1 = Ok tt →
  (update_data int_of_str int_of_float sess df D c1).1 = Ok tt →
  since c1 c2 = since c c1 ∧
  log c2 = log c ++ since c c1 ++ since c c1 ∧
  (∀ s, executed_on s (since c c2)
        = executed_on s (since c c1) ++ executed_on s (since c c1)).
Proof.
  intros Hc c1 c2 Hr1 Hr2.
  destruct (update_data_returns_since int_of_str int_of_float sess df D c Hr1)
    as (us1 & dels1 & Hus1 & Hdels1 & Hi1 & Hs1).
  destruct (update_data_returns_since int_of_str int_of_float sess df D c1 Hr2)
    as (us2 & dels2 & Hus2 & Hdels2 & _ & Hs2).
  fold c1 in Hi1, Hs1. fold c2 in Hs2.
  assert (Hus : us2 = us1).
  { destruct (truthy (edited_rows D)); [|congruence].
    destruct Hus1 as (rows1 & Hb1 & ->). destruct Hus2 as (rows2 & Hb2 & ->).
    congruence. }
  assert (Hdels : dels2 = dels1).
  { apply map_Ok_inj. congruence. }
  assert (Hsame : since c1 c2 = since c c1).
  { rewrite Hs1, Hs2, Hc, Hi1, Hus, Hdels. done. }
  assert (Hlog : log c2 = log c ++ since c c1 ++ since c c1).
  { unfold c2. rewrite update_data_log. fold c2. rewrite Hsame.
    unfold c1 at 1. rewrite update_data_log. fold c1.
    by rewrite <- app_assoc. }
  split; [done|]. split; [done|].
  intros s. rewrite (since_app c c2 _ Hlog). apply executed_on_app.
Qed.

(** Two calls with one edited cell: the same update twice. *)
Lemma repeated_call_repeats_statements_witness :
  let df := [item 1 "apple" 5 2] in
  let D := edits [(0, {[ "units_left" := VInt 1 ]})] in
  let c1 := (update_data no_str no_float (session_of D) df D inventory_db).2 in
  let c2 := (update_data no_str no_float (session_of D) df D c1).2 in
  executed_on UPDATE (since inventory_db c2)
  = [dict (item 1 "apple" 1 2); dict (item 1 "apple" 1 2)].
Proof.
  intros df D c1 c2.
  assert (H1 : (update_data no_str no_float (session_of D) df D inventory_db).1
               = Ok tt) by (vm_compute; reflexivity).
  assert (H2 : (update_data no_str no_float (session_of D) df D c1).1 = Ok tt)
    by (vm_compute; reflexivity).
  pose proof (repeated_call_repeats_statements no_str no_float (session_of D)
                df D inventory_db eq_refl H1 H2) as (_ & _ & H).
  refine (eq_trans (H UPDATE) _). vm_compute. reflexivity.
Defined.

(** ** One call after another on the same connection *)

(** X8. What a failed call leaves pending is committed by the next call that
    goes through on the same connection.  If a first call raises and leaves
    the connection inside a transaction, and a second call (with any
    arguments for which it goes through) follows, then the second call opens
    no transaction of its own: its statements are appended to those of the
    failed call and one [Commit] closes them all. *)
Theorem next_call_commits_pending_statements
        (int_of_str : string → result Z) (int_of_float : Z → result Z)
        (sess1 sess2 : session_state) (df1 df2 : DataFrame)
        (D1 D2 : editing_state) (c : connection)
        (rows : list row) (ks : list Z) :
  let c1 := (update_data int_of_str int_of_float sess1 df1 D1 c).2 in
  let c2 := (update_data int_of_str int_of_float sess2 df2 D2 c1).2 in
  has_inventory_table c →
  is_ok (update_data int_of_str int_of_float sess1 df1 D1 c).1 = false →
  in_transaction c1 = true →
  edits_go_through sess2 df2 D2 rows →
  Forall (fun r => bindable INSERT (defaultdict_None r)) (added_rows D2) →
  Forall2 (fun p k => resolves_to int_of_str int_of_float df2 p k ∧ in_int64 k)
          (deleted_rows D2) ks →
  (update_data int_of_str int_of_float sess2 df2 D2 c1).1 = Ok tt ∧
  in_transaction c2 = false ∧
  (Commit ∉ since c c1) ∧
  since c c2
  = since c c1
    ++ (map (Exec UPDATE) (map dict rows)
        ++ map (Exec INSERT) (map defaultdict_None (added_rows D2))
        ++ map (Exec DELETE) (map delete_key ks))
    ++ [Commit].
Proof.
  intros c1 c2 Hinv Hfail Hpend Hed Had Hdel.
  destruct (update_data_trace int_of_str int_of_float sess1 df1 D1 c)
    as (ran & us & ins & dels & Ht1 & Hl1 & _).
  simpl in Ht1, Hl1. fold c1 in Ht1, Hl1. rewrite Hfail in Hl1.
  simpl in Hl1. rewrite app_nil_r in Hl1.
  assert (Hinv1 : has_inventory_table c1) by (by apply (has_inventory_tables c)).
  destruct (update_data_success int_of_str int_of_float sess2 df2 D2 c1 rows ks
              Hinv1 Hed Had Hdel) as (Hr2 & _ & Hi2 & Hs2).
  fold c2 in Hi2, Hs2. rewrite Hpend in Hs2. simpl in Hs2.
  split; [done|]. split; [done|]. split.
  - rewrite (since_app _ _ _ Hl1). intros Hc.
    apply elem_of_app in Hc as [Hc|Hc].
    + destruct (negb _ && _); [|by apply not_elem_of_nil in Hc].
      apply list_elem_of_singleton in Hc. discriminate Hc.
    + apply elem_of_app in Hc as [Hc|Hc]; [by apply Commit_not_executed in Hc|].
      apply elem_of_app in Hc as [Hc|Hc]; by apply Commit_not_executed in Hc.
  - apply since_app. unfold c2. rewrite update_data_log. fold c2.
    rewrite Hs2. unfold c1 at 1. rewrite update_data_log. fold c1.
    by rewrite <- !app_assoc.
Qed.

(** The failed call of [failed_call_leaves_update_pending], then a call that
    deletes the row: the update of the first call is committed with the
    delete of the second. *)
Lemma next_call_commits_pending_statements_witness :
  let df := [item 1 "apple" 5 2] in
  let D1 := {| edited_rows := [(0, {[ "units_left" := VInt 1 ]})];
               added_rows := [];
               deleted_rows := [7] |} in
  let D2 := {| edited_rows := []; added_rows := []; deleted_rows := [0] |} in
  let c1 := (update_data no_str no_float (session_of D1) df D1 inventory_db).2 in
  let c2 := (update_data no_str no_float (session_of D2) df D2 c1).2 in
  since inventory_db c2
  = [Begin; Exec UPDATE (dict (item 1 "apple" 1 2));
     Exec DELETE (delete_key 1); Commit].
Proof.
  intros df D1 D2 c1 c2.
  assert (Hinv : has_inventory_table inventory_db).
  { exists {| t_columns := inventory_columns; t_rows := [] |}. split; reflexivity. }
  assert (Hres : Forall2 (fun p k => resolves_to no_str no_float df p k ∧ in_int64 k)
                         (deleted_rows D2) [1]).
  { constructor; [|constructor]. split.
    - split; [lia|]. exists (item 1 "apple" 5 2), (VInt 1).
      repeat split; reflexivity.
    - unfold in_int64. lia. }
  pose proof (next_call_commits_pending_statements no_str no_float
                (session_of D1) (session_of D2) df df D1 D2 inventory_db [] [1]
                Hinv eq_refl eq_refl eq_refl (List.Forall_nil _) Hres)
    as (_ & _ & _ & H).
  refine (eq_trans H _). vm_compute. reflexivity.
Defined.

(** ** Positions, read by [iloc] and by [loc] *)

(** X9. The edited block reads a position with [df.iloc], the deleted block
    with [df.loc], and the two differ below zero.  For a position [p] in
    [-n .. n-1] the edited block always finds a row: row [p], or row
    [n + p] when [p] is negative.  The deleted block finds the same row when
    [p] is not negative, and raises [KeyError] when it is. *)
Theorem negative_position_edits_but_does_not_delete
        (int_of_str : string → result Z) (int_of_float : Z → result Z)
        (df : DataFrame) (p : Z) (m : row) :
  let n := Z.of_nat (length df) in
  - n <= p < n →
  ∃ r, df !! Z.to_nat (if p <? 0 then n + p else p) = Some r ∧
       row_dict df p m = Ok (m ∪ r) ∧
       delete_parameters int_of_str int_of_float df p
       = (if p <? 0 then Raise KeyError
          else match r !! "id" with
               | Some v => k ← py_int int_of_str int_of_float v; mret (delete_key k)
               | None => Raise KeyError
               end).
Proof.
  intros n Hp. unfold row_dict, iloc, delete_parameters, loc.
  cbv zeta. fold n.
  destruct (Z.ltb_spec p 0) as [Hneg|Hpos].
  - assert (is_Some (df !! Z.to_nat (n + p))) as [r Hr]
      by (apply lookup_lt_is_Some_2; lia).
    exists r. split; [done|].
    destruct (Z.leb_spec 0 (n + p)); [|lia].
    destruct (Z.ltb_spec (n + p) n); [|lia].
    cbn [andb]. rewrite Hr. split; [done|].
    destruct (Z.leb_spec 0 p); [lia|]. done.
  - assert (is_Some (df !! Z.to_nat p)) as [r Hr]
      by (apply lookup_lt_is_Some_2; lia).
    exists r. split; [done|].
    destruct (Z.leb_spec 0 p); [|lia].
    destruct (Z.ltb_spec p n); [|lia].
    cbn [andb]. rewrite Hr. split; [done|]. by destruct (r !! "id").
Qed.

(** The last row of a two-row snapshot, addressed as [-1]. *)
Lemma negative_position_edits_but_does_not_delete_witness :
  let df := [only_id 1; only_id 2] in
  ∃ r, df !! Z.to_nat (if -1 <? 0 then Z.of_nat (length df) + -1 else -1) = Some r ∧
       row_dict df (-1) ∅ = Ok (∅ ∪ r) ∧
       delete_parameters no_str no_float df (-1)
       = (if -1 <? 0 then Raise KeyError
          else match r !! "id" with
               | Some v => k ← py_int no_str no_float v; mret (delete_key k)
               | None => Raise KeyError
               end).
Proof.
  intros df.
  apply (negative_position_edits_but_does_not_delete no_str no_float df (-1) ∅).
  simpl. lia.
Defined.

(** ** Rows that cannot be bound *)

Lemma bind_value_raises v e : bind_value v = Raise e → e = OverflowError.
Proof.
  destruct v as [|z|b|s]; simpl; try done.
  destruct (_ && _); congruence.
Qed.

Lemma bind_names_dict_raises names r e :
  bind_names names (dict r) = Raise e → e = ProgrammingError ∨ e = OverflowError.
Proof.
  induction names as [|name rest IH]; simpl; [done|].
  destruct (r !! name) as [v|]; [|intros [= <-]; by left].
  destruct (bind_value v) as [v'|e'] eqn:Hv.
  - destruct (bind_names rest (dict r)) as [vs|e'']; [done|].
    intros [= <-]. by apply IH.
  - intros [= <-]. right. by apply (bind_value_raises v).
Qed.

Lemma bind_names_missing names r col :
  col ∈ names → r !! col = None → is_ok (bind_names names (dict r)) = false.
Proof.
  intros Hin Hcol. induction names as [|name rest IH]; simpl.
  - by apply not_elem_of_nil in Hin.
  - destruct (decide (col = name)) as [->|Hne]; [by rewrite Hcol|].
    apply elem_of_cons in Hin as [Hin|Hin]; [done|].
    destruct (r !! name) as [v|]; [|done].
    destruct (bind_value v); [|done].
    specialize (IH Hin). by destruct (bind_names rest (dict r)).
Qed.

Lemma executed_bindable s ps q : q ∈ executed s ps → bindable s q.
Proof.
  induction ps as [|[p|e] rest IH]; simpl; intros Hin.
  - by apply not_elem_of_nil in Hin.
  - destruct (is_ok (bind_parameters s p)) eqn:Hb;
      [|by apply not_elem_of_nil in Hin].
    apply elem_of_cons in Hin as [->|Hin]; [done|by apply IH].
  - by apply not_elem_of_nil in Hin.
Qed.

Lemma outcome_unbindable s qs q :
  q ∈ qs → is_ok (bind_parameters s q) = false →
  is_ok (outcome s (map Ok qs)) = false.
Proof.
  intros Hin Hq. induction qs as [|q' qs IH]; simpl.
  - by apply not_elem_of_nil in Hin.
  - destruct (bind_parameters s q') as [vs|e] eqn:Hb; [|done].
    apply elem_of_cons in Hin as [->|Hin]; [by rewrite Hb in Hq|by apply IH].
Qed.

Lemma outcome_dicts_raise s rows e :
  outcome s (map Ok (map dict rows)) = Raise e →
  e = ProgrammingError ∨ e = OverflowError.
Proof.
  induction rows as [|r rows IH]; simpl; [done|].
  destruct (bind_parameters s (dict r)) as [vs|e'] eqn:Hb; [done|].
  intros [= <-]. by apply (bind_names_dict_raises (named_parameters s) r).
Qed.

(** X10. A snapshot row that lacks one of the eight columns of the [UPDATE]
    cannot be edited unless the edit itself supplies the column.  When the
    table exists and all edited positions resolve, an entry [(p, m)] of the
    session's [edited_rows] such that neither the row at [p] nor [m] has the
    column makes [update_data] raise ([ProgrammingError], or [OverflowError]
    if an integer that does not fit comes first): the update of that row is
    never executed, only updates of the entries before it can be, and no
    insert, delete or commit follows. *)
Theorem missing_column_blocks_update
        (int_of_str : string → result Z) (int_of_float : Z → result Z)
        (sess : session_state) (df : DataFrame) (D : editing_state)
        (c : connection) (rows : list row) (p : Z) (m r : row) (col : string) :
  has_inventory_table c →
  truthy (edited_rows D) = true →
  build_rows df (edited_rows (inventory_table sess)) = Ok rows →
  (p, m) ∈ edited_rows (inventory_table sess) →
  iloc df p = Ok r →
  col ∈ named_parameters UPDATE →
  m !! col = None →
  r !! col = None →
  let out := update_data int_of_str int_of_float sess df D c in
  ∃ e us,
    out.1 = Raise e ∧
    (e = ProgrammingError ∨ e = OverflowError) ∧
    since c out.2
    = (if in_transaction c then [] else [Begin]) ++ map (Exec UPDATE) us ∧
    us `prefix_of` map dict rows ∧
    dict (m ∪ r) ∉ us.
Proof.
  intros Hinv Hg Hrows Hin Hr Hcol Hm Hrcol out.
  destruct (build_rows_elem _ _ _ _ _ Hrows Hin) as (r' & Hr' & Hin').
  rewrite Hr in Hr'. injection Hr' as <-.
  assert (Hun : is_ok (bind_parameters UPDATE (dict (m ∪ r))) = false).
  { apply (bind_names_missing _ _ col); [done|].
    apply lookup_union_None. by split. }
  assert (Hout : is_ok (outcome UPDATE (map Ok (map dict rows))) = false).
  { apply (outcome_unbindable _ _ (dict (m ∪ r))); [|done].
    apply list_elem_of_fmap. by exists (m ∪ r). }
  assert (Heq : out = (outcome UPDATE (map Ok (map dict rows)),
                       with_log c true
                         (log c ++ begin_events c
                          ++ map (Exec UPDATE)
                               (executed UPDATE (map Ok (map dict rows)))))).
  { unfold out, update_data. rewrite seq_eq. unfold edited_block. rewrite Hg.
    rewrite bind_eq. unfold lift. rewrite Hrows.
    rewrite executemany_eq, has_inventory_prepared by done.
    rewrite <- (map_map dict Ok). simpl.
    by destruct (outcome UPDATE (map Ok (map dict rows))). }
  destruct (outcome UPDATE (map Ok (map dict rows))) as [[]|e] eqn:Ho; [done|].
  exists e, (executed UPDATE (map Ok (map dict rows))).
  rewrite Heq. simpl. split; [done|].
  split; [by apply (outcome_dicts_raise UPDATE rows)|].
  split; [by apply since_app|].
  split.
  - apply (map_Ok_prefix dict). rewrite <- (map_map dict Ok).
    apply executed_prefix.
  - intros Hex. apply executed_bindable in Hex. unfold bindable in Hex. congruence.
Qed.

(** The three-column row [{id:1, units_left:5, reorder_point:2}] has no
    [item_name]. *)
Lemma missing_column_blocks_update_witness :
  let df := [short_row] in
  let m : row := {[ "units_left" := VInt 1 ]} in
  let D := edits [(0, m)] in
  let out := update_data no_str no_float (session_of D) df D inventory_db in
  ∃ e us,
    out.1 = Raise e ∧
    (e = ProgrammingError ∨ e = OverflowError) ∧
    since inventory_db out.2
    = (if in_transaction inventory_db then [] else [Begin]) ++ map (Exec UPDATE) us ∧
    us `prefix_of` map dict [m ∪ short_row] ∧
    dict (m ∪ short_row) ∉ us.
Proof.
  intros df m D out.
  assert (Hinv : has_inventory_table inventory_db).
  { exists {| t_columns := inventory_columns; t_rows := [] |}. split; reflexivity. }
  assert (Hin : (0, m) ∈ edited_rows (inventory_table (session_of D))).
  { apply list_elem_of_singleton. reflexivity. }
  assert (Hcol : "item_name" ∈ named_parameters UPDATE).
  { apply elem_of_cons. by left. }
  exact (missing_column_blocks_update no_str no_float (session_of D) df D
           inventory_db [m ∪ short_row] 0 m short_row "item_name"
           Hinv eq_refl eq_refl Hin eq_refl Hcol eq_refl eq_refl).
Defined.

Lemma bind_value_int64 z : is_ok (bind_value (VInt z)) = true ↔ in_int64 z.
Proof.
  unfold in_int64. simpl.
  destruct (Z.leb_spec (- 2 ^ 63) z), (Z.ltb_spec z (2 ^ 63)); simpl;
    split; try done; lia.
Qed.

Lemma bind_names_default_raises names r e :
  bind_names names (defaultdict_None r) = Raise e → e = OverflowError.
Proof.
  induction names as [|name rest IH]; simpl; [done|].
  destruct (r !! name) as [v|].
  - destruct (bind_value v) as [v'|e'] eqn:Hv.
    + destruct (bind_names rest (defaultdict_None r)) as [vs|e'']; [done|].
      intros [= <-]. by apply IH.
    + intros [= <-]. by apply (bind_value_raises v).
  - simpl. destruct (bind_names rest (defaultdict_None r)) as [vs|e'']; [done|].
    intros [= <-]. by apply IH.
Qed.

Lemma bind_names_default_ok names r :
  is_ok (bind_names names (defaultdict_None r)) = true ↔
  ∀ col z, col ∈ names → r !! col = Some (VInt z) → in_int64 z.
Proof.
  induction names as [|name rest IH]; simpl.
  - split; [|done]. intros _ col z Hin. by apply not_elem_of_nil in Hin.
  - assert (Hrest : is_ok (match bind_names rest (defaultdict_None r) with
                           | Ok vs => Ok (VNone :: vs)
                           | Raise e => Raise e
                           end) = is_ok (bind_names rest (defaultdict_None r)))
      by (by destruct (bind_names rest (defaultdict_None r))).
    destruct (r !! name) as [v|] eqn:Hname.
    + destruct (bind_value v) as [v'|e'] eqn:Hv.
      * assert (Hrest' : is_ok (match bind_names rest (defaultdict_None r) with
                                | Ok vs => Ok (v' :: vs)
                                | Raise e => Raise e
                                end) = is_ok (bind_names rest (defaultdict_None r)))
          by (by destruct (bind_names rest (defaultdict_None r))).
        rewrite Hrest', IH. split.
        -- intros H col z Hin Hcol. apply elem_of_cons in Hin as [->|Hin].
           ++ rewrite Hname in Hcol. injection Hcol as ->.
              apply bind_value_int64. by rewrite Hv.
           ++ by apply (H col).
        -- intros H col z Hin. apply H, elem_of_cons. by right.
      * split; [done|]. intros H. exfalso.
        destruct v as [|z|b|s]; try done.
        assert (Hz : in_int64 z) by (apply (H name); [apply elem_of_cons; by left|done]).
        apply bind_value_int64 in Hz. by rewrite Hv in Hz.
    + simpl. rewrite Hrest, IH. split.
      * intros H col z Hin Hcol. apply elem_of_cons in Hin as [->|Hin].
        -- congruence.
        -- by apply (H col).
      * intros H col z Hin. apply H, elem_of_cons. by right.
Qed.

Lemma outcome_ok_iff s qs :
  outcome s (map Ok qs) = Ok tt ↔ Forall (bindable s) qs.
Proof.
  split; [|apply outcome_bindable].
  induction qs as [|q qs IH]; simpl; [by constructor|].
  destruct (bind_parameters s q) as [vs|e] eqn:Hb; [|done].
  intros H. constructor; [|by apply IH]. unfold bindable. by rewrite Hb.
Qed.

(** ** Added rows that do not fit *)

(** X11. An added row cannot fail to bind for a column it lacks: wrapped in
    [defaultdict(lambda: None, row)], it binds to the [INSERT] exactly when
    every integer it holds for one of the eight columns is inside the signed
    64-bit range, and the only exception that binding it can raise is
    [OverflowError]; the same row passed as a plain dictionary does not bind
    as soon as one of the eight columns is missing.  An added row with an
    integer outside that range makes the added block fail on every
    connection. *)
Theorem added_row_binds_unless_overflow
        (D : editing_state) (c : connection) (r : row) :
  (bindable INSERT (defaultdict_None r) ↔
   ∀ col z, col ∈ inventory_columns → r !! col = Some (VInt z) → in_int64 z) ∧
  (∀ e, bind_parameters INSERT (defaultdict_None r) = Raise e →
        e = OverflowError) ∧
  (∀ col, col ∈ inventory_columns → r !! col = None →
          ¬ bindable INSERT (dict r)) ∧
  (∀ col z, r ∈ added_rows D → col ∈ inventory_columns →
            r !! col = Some (VInt z) → ¬ in_int64 z →
            (added_block D c).1 ≠ Ok tt).
Proof.
  assert (Hb : bindable INSERT (defaultdict_None r) ↔
               (∀ col z, col ∈ inventory_columns → r !! col = Some (VInt z) →
                         in_int64 z)) by apply bind_names_default_ok.
  split; [done|]. split.
  { intros e. apply (bind_names_default_raises (named_parameters INSERT) r). }
  split.
  { intros col Hin Hcol. unfold bindable, bind_parameters.
    by rewrite (bind_names_missing _ _ col). }
  intros col z Hr Hin Hcol Hz Hok. apply Hz.
  apply (proj1 Hb) with (col := col); [|done|done].
  assert (Hg : truthy (added_rows D) = true).
  { destruct (added_rows D); [by apply not_elem_of_nil in Hr|done]. }
  unfold added_block in Hok. rewrite Hg, executemany_eq in Hok.
  destruct (prepared INSERT c); [|done]. cbn [fst] in Hok.
  rewrite <- (map_map defaultdict_None Ok) in Hok.
  apply outcome_ok_iff in Hok.
  rewrite Forall_forall in Hok. apply Hok.
  apply list_elem_of_fmap. by exists r.
Qed.

(** ** A deleted position that is not there *)

(** X12. The deleted positions are resolved one at a time, while the deletes
    are being executed.  When the table exists, the edited and added blocks
    go through, and the deleted positions before a position [p] outside
    [0 .. n-1] resolve, the call raises [KeyError] at [p] only after it has
    executed every update, every insert and the deletes of the positions
    before [p]; these statements are not committed and not undone, and the
    positions after [p] are never looked at. *)
Theorem stale_delete_raises_after_earlier_statements
        (int_of_str : string → result Z) (int_of_float : Z → result Z)
        (sess : session_state) (df : DataFrame) (D : editing_state)
        (c : connection) (rows : list row) (ds : list Z) (p : Z)
        (rest : list Z) (ks : list Z) :
  has_inventory_table c →
  edits_go_through sess df D rows →
  Forall (fun r => bindable INSERT (defaultdict_None r)) (added_rows D) →
  deleted_rows D = ds ++ p :: rest →
  Forall2 (fun p k => resolves_to int_of_str int_of_float df p k ∧ in_int64 k) ds ks →
  ¬ (0 <= p < Z.of_nat (length df)) →
  let out := update_data int_of_str int_of_float sess df D c in
  out.1 = Raise KeyError ∧
  in_transaction out.2 = true ∧
  since c out.2
  = (if in_transaction c then [] else [Begin])
    ++ map (Exec UPDATE) (map dict rows)
    ++ map (Exec INSERT) (map defaultdict_None (added_rows D))
    ++ map (Exec DELETE) (map delete_key ks).
Proof.
  intros Hinv Hed Had HD Hres Hp out.
  assert (E1 : (edited_block sess df D c).1 = Ok tt).
  { unfold edits_go_through in Hed. destruct (truthy (edited_rows D)) eqn:Hg.
    - destruct Hed. by eapply edited_block_ok.
    - unfold edited_block. by rewrite Hg. }
  destruct (edited_block_spec sess df D c) as (r1 & us & J1 & _ & K1).
  destruct (K1 E1) as [-> Hus].
  assert (us = map dict rows) as ->.
  { unfold edits_go_through in Hed. destruct (truthy (edited_rows D)).
    - destruct Hus as (rows' & Hrows' & ->). destruct Hed as [Hrows _].
      rewrite Hrows in Hrows'. by injection Hrows' as <-.
    - by rewrite Hus, Hed. }
  set (c1 := (edited_block sess df D c).2) in *.
  assert (Hinv1 : has_inventory_table c1)
    by (apply (has_inventory_tables c); [apply J1|done]).
  assert (E2 : (added_block D c1).1 = Ok tt) by (by apply added_block_ok).
  destruct (added_block_spec D c1) as (r2 & ins & J2 & _ & K2).
  destruct (K2 E2) as [-> ->].
  set (c2 := (added_block D c1).2) in *.
  pose proof (extends_trans _ _ _ _ _ _ _ J1 J2) as (Ht & Hi & Hl & Hn).
  assert (Hinv2 : has_inventory_table c2) by (by apply (has_inventory_tables c)).
  destruct (resolved_delete_parameters int_of_str int_of_float _ _ _ Hres)
    as [Hmap Hbind].
  destruct (outcome_until_raise DELETE (map delete_key ks) KeyError
              (map (delete_parameters int_of_str int_of_float df) rest) Hbind)
    as [Hout Hexe].
  assert (Heq : out = (Raise KeyError,
                       with_log c2 true
                         (log c2 ++ begin_events c2
                          ++ map (Exec DELETE) (map delete_key ks)))).
  { unfold out, update_data. rewrite seq_eq, E1. fold c1.
    rewrite seq_eq, E2. fold c2. rewrite seq_eq. unfold deleted_block. rewrite HD.
    replace (truthy (ds ++ p :: rest)) with true by (by destruct ds).
    rewrite executemany_eq, has_inventory_prepared by done.
    rewrite map_app. cbn [map]. rewrite Hmap, delete_parameters_stale by done.
    by rewrite Hout, Hexe. }
  rewrite Heq. simpl. split; [done|]. split; [done|].
  apply since_app. rewrite Hl. unfold begin_events. rewrite Hi.
  destruct (in_transaction c); simpl.
  - by rewrite <- !(assoc_L (++)).
  - destruct (truthy (edited_rows D) || truthy (added_rows D)) eqn:Hran; simpl.
    + rewrite <- !(assoc_L (++)). simpl. by rewrite <- !(assoc_L (++)).
    + assert (Hnil : map (Exec UPDATE) (map dict rows)
                     ++ map (Exec INSERT) (map defaultdict_None (added_rows D)) = []).
      { destruct (map (Exec UPDATE) (map dict rows)
                  ++ map (Exec INSERT) (map defaultdict_None (added_rows D)));
          [done|]. by discriminate Hn. }
      apply app_eq_nil in Hnil as [HU HI]. rewrite HU, HI. simpl.
      by rewrite !app_nil_r.
Qed.

(** An edit, then a deleted position that resolves, then one that does not:
    the update and the first delete are executed, and left pending. *)
Lemma stale_delete_raises_after_earlier_statements_witness :
  let df := [item 1 "apple" 5 2] in
  let D := {| edited_rows := [(0, {[ "units_left" := VInt 1 ]})];
              added_rows := [];
              deleted_rows := [0; 7; 0] |} in
  let out := update_data no_str no_float (session_of D) df D inventory_db in
  out.1 = Raise KeyError ∧
  in_transaction out.2 = true ∧
  since inventory_db out.2
  = [Begin; Exec UPDATE (dict (item 1 "apple" 1 2)); Exec DELETE (delete_key 1)].
Proof.
  intros df D out.
  assert (Hinv : has_inventory_table inventory_db).
  { exists {| t_columns := inventory_columns; t_rows := [] |}. split; reflexivity. }
  assert (Hed : edits_go_through (session_of D) df D
                  [{[ "units_left" := VInt 1 ]} ∪ item 1 "apple" 5 2]).
  { split; [reflexivity|]. constructor; [|constructor]. vm_compute. reflexivity. }
  assert (Hres : Forall2 (fun p k => resolves_to no_str no_float df p k ∧ in_int64 k)
                         [0] [1]).
  { constructor; [|constructor]. split.
    - split; [lia|]. exists (item 1 "apple" 5 2), (VInt 1).
      repeat split; reflexivity.
    - unfold in_int64. lia. }
  assert (Hp : ¬ (0 <= 7 < Z.of_nat (length df))) by (simpl; lia).
  pose proof (stale_delete_raises_after_earlier_statements no_str no_float
                (session_of D) df D inventory_db _ [0] 7 [0] [1]
                Hinv Hed (List.Forall_nil _) eq_refl Hres Hp) as (H1 & H2 & H3).
  split; [exact H1|]. split; [exact H2|].
  refine (eq_trans H3 _). vm_compute. reflexivity.
Defined.

(** ** A database without the [inventory] table *)

Lemma build_rows_raises (df : DataFrame) deltas e :
  build_rows df deltas = Raise e → e = IndexError.
Proof.
  induction deltas as [|[i delta] rest IH]; simpl; [done|].
  unfold row_dict. destruct (iloc df i) as [r|e'] eqn:Hi; simpl.
  - destruct (build_rows df rest) as [rows|e'']; simpl; [done|].
    intros [= <-]. by apply IH.
  - intros [= <-]. by apply (iloc_raises df i).
Qed.

(** X13. On any connection that has no [inventory] table (and no transaction
    open) a call can change nothing: the connection is handed back as it was.
    With an empty diff the call returns; with any other diff it raises,
    [IndexError] if the edited block is entered and a position of the
    session's [edited_rows] does not resolve, and [OperationalError]
    otherwise, from the first statement that is compiled. *)
Theorem missing_table_blocks_every_call
        (int_of_str : string → result Z) (int_of_float : Z → result Z)
        (sess : session_state) (df : DataFrame) (D : editing_state)
        (c : connection) :
  tables c !! "inventory" = None →
  in_transaction c = false →
  let out := update_data int_of_str int_of_float sess df D c in
  let stale := truthy (edited_rows D)
               && negb (is_ok (build_rows df (edited_rows (inventory_table sess)))) in
  out.2 = c ∧
  out.1 = (if any_block D then
             Raise (if stale then IndexError else OperationalError)
           else Ok tt).
Proof.
  intros Hnone Hc out stale.
  assert (Hprep : ∀ s, prepared s c = false).
  { intros s. unfold prepared. by rewrite table_of_inventory, Hnone. }
  subst out stale. unfold any_block, update_data.
  rewrite seq_eq. unfold edited_block.
  destruct (truthy (edited_rows D)); simpl.
  { rewrite bind_eq. unfold lift.
    destruct (build_rows df _) as [rows|e] eqn:Hb; simpl.
    - by rewrite executemany_eq, Hprep.
    - by rewrite (build_rows_raises _ _ _ Hb). }
  rewrite seq_eq. unfold added_block.
  destruct (truthy (added_rows D)); simpl.
  { by rewrite executemany_eq, Hprep. }
  rewrite seq_eq. unfold deleted_block.
  destruct (truthy (deleted_rows D)); simpl.
  { by rewrite executemany_eq, Hprep. }
  by rewrite commit_eq, Hc.
Qed.

(** The database that [initialize_data] leaves, and one added row. *)
Lemma missing_table_blocks_every_call_witness :
  let D := {| edited_rows := []; added_rows := [widget_row]; deleted_rows := [] |} in
  update_data no_str no_float (session_of D) [] D initialized_db
  = (Raise OperationalError, initialized_db).
Proof.
  intros D.
  pose proof (missing_table_blocks_every_call no_str no_float (session_of D)
                [] D initialized_db eq_refl eq_refl) as [H2 H1].
  rewrite (surjective_pairing (update_data _ _ _ _ _ _)).
  by rewrite H1, H2.
Defined.
